(** * zenoh.closures: closures, handlers, ListCollector and Queue

    A shallow embedding of [zenoh/closures.py].  Python objects that are
    mutated in place are modelled by explicit state passing; a call that may
    raise returns an [outcome]; the other threads of the program are seen by a
    consumer at the points where it is suspended in [Condition.wait]. *)

From Stdlib Require Import Ascii String ZArith Bool Lia List.
Import ListNotations.

Set Implicit Arguments.
#[local] Set Warnings "-register-all".

(** ** Exceptions and outcomes *)

(** The exception classes the module raises or lets through. *)
Inductive exn : Type :=
| TypeError
| ValueError
| IndexError
| RuntimeError
| QueueClosed
| TimeoutError.

(** What a call does: it returns a value, raises, or has not come back (the
    thread stays suspended in [Condition.wait], or a loop is still running
    when its fuel is used up). *)
Inductive outcome (A : Type) : Type :=
| Return (a : A)
| Raise (e : exn)
| Blocked.

Arguments Raise {A} e.
Arguments Blocked {A}.

(** A computation over a mutable state [St]: the state is kept also when the
    computation raises, since Python does not roll a mutation back. *)
Definition M (St A : Type) : Type := St -> outcome A * St.

Definition ret {St A} (a : A) : M St A := fun s => (Return a, s).

Definition bind {St A B} (c : M St A) (k : A -> M St B) : M St B :=
  fun s =>
    match c s with
    | (Return a, s') => k a s'
    | (Raise e, s') => (Raise e, s')
    | (Blocked, s') => (Blocked, s')
    end.

Definition raise {St A} (e : exn) : M St A := fun s => (Raise e, s).

Definition gets {St A} (f : St -> A) : M St A := fun s => (Return (f s), s).

Definition modify {St} (f : St -> St) : M St unit := fun s => (Return tt, f s).

(** [try: c  except e: pass]: [Some a] when [c] returned [a], [None] when it
    raised [e] and the handler swallowed it. *)
Definition try_except {St A} (c : M St A) (e : exn -> bool) : M St (option A) :=
  fun s =>
    match c s with
    | (Return a, s') => (Return (Some a), s')
    | (Raise x, s') => if e x then (Return None, s') else (Raise x, s')
    | (Blocked, s') => (Blocked, s')
    end.

Declare Scope py_scope.
Delimit Scope py_scope with py.
Notation "x <- c ;; k" := (bind c (fun x => k))
  (at level 61, c at next level, right associativity) : py_scope.
Notation "c ;;; k" := (bind c (fun _ => k))
  (at level 61, right associativity) : py_scope.
Local Open Scope py_scope.

Definition is_IndexError (e : exn) : bool :=
  match e with IndexError => true | _ => false end.

(** ** Python values *)

(** The values that travel through a closure; Python is untyped, so the
    [In], [Out] type variables of the source are all this one universe. *)
Inductive pyval : Type :=
| PyNone
| PyInt (z : Z)
| PyStr (s : string)
| PyList (items : list pyval).

(** ** Closure and Handler *)

Section Normalisation.

(** The state the user's callbacks act on. *)
Variable W : Type.

(** A Python callable, applied to its positional arguments. *)
Definition callback : Type := list pyval -> M W pyval.

(** The objects the constructors inspect with [isinstance] and [callable]. *)
Inductive obj : Type :=
| OHandler (closure receiver : obj)   (* an IHandler, by its two properties *)
| OClosure (call drop : obj)          (* an IClosure, by its two properties *)
| OTuple (items : list obj)
| OCallable (f : callback)
| OValue (v : pyval).                 (* anything else: an int, None, ... *)

(** Calling an object: only a callable can be called. *)
Definition invoke (o : obj) : callback :=
  match o with
  | OCallable f => f
  | _ => fun _ => raise TypeError
  end.

(** [lambda: None] *)
Definition lambda_None : callback :=
  fun args =>
    match args with
    | [] => ret PyNone
    | _ => raise TypeError
    end.

(** [a, b = t]: a tuple of any other length raises [ValueError]. *)
Definition unpack2 (items : list obj) : outcome (obj * obj) :=
  match items with
  | [a; b] => Return (a, b)
  | _ => Raise ValueError
  end.

Record Closure : Type := mkClosure { _call_ : obj; _drop_ : obj }.

(** The lambda that applies [type_adaptor] to the arguments it is given and
    passes the one result on to [_call_]. *)
Definition adapted (type_adaptor _call_ : obj) : callback :=
  fun args => y <- invoke type_adaptor args ;; invoke _call_ [y].

(** [Closure.__init__(closure, type_adaptor)] *)
Definition Closure_init (closure : obj) (type_adaptor : option obj)
  : outcome Closure :=
  let closure :=
    match closure with
    | OHandler c _ => c
    | _ => closure
    end in
  let parts :=
    match closure with
    | OClosure call drop => Return (call, drop)
    | OTuple items => unpack2 items
    | OCallable _ => Return (closure, OCallable lambda_None)
    | _ => Raise TypeError
    end in
  match parts with
  | Return (call, drop) =>
      match type_adaptor with
      | Some ta => Return (mkClosure (OCallable (adapted ta call)) drop)
      | None => Return (mkClosure call drop)
      end
  | Raise e => Raise e
  | Blocked => Blocked
  end.

(** A [Closure] is itself an [IClosure]. *)
Definition Closure_obj (c : Closure) : obj := OClosure (_call_ c) (_drop_ c).

Record Handler : Type := mkHandler { _closure_ : Closure; _receiver_ : obj }.

Definition is_IClosure (o : obj) : bool :=
  match o with OClosure _ _ => true | _ => false end.

(** The closure-shaped part and the receiver [Handler.__init__] reads off its
    input, before the part goes through [Closure]. *)
Definition Handler_parts (input : obj) : outcome (obj * obj) :=
  match input with
  | OHandler c r => Return (c, r)
  | OClosure _ _ => Return (input, OValue PyNone)
  | OTuple items =>
      match items with
      | [] => Raise IndexError                       (* input[0] *)
      | first :: _ =>
          if is_IClosure first then unpack2 items
          else if Nat.eqb (length items) 3 then
            match items with
            | [call; drop; r] => Return (OTuple [call; drop], r)
            | _ => Raise ValueError
            end
          else Return (input, OValue PyNone)
      end
  | _ => Return (input, OValue PyNone)
  end.

(** [Handler.__init__(input, type_adaptor)] *)
Definition Handler_init (input : obj) (type_adaptor : option obj)
  : outcome Handler :=
  match Handler_parts input with
  | Return (c, r) =>
      match Closure_init c type_adaptor with
      | Return cl => Return (mkHandler cl r)
      | Raise e => Raise e
      | Blocked => Blocked
      end
  | Raise e => Raise e
  | Blocked => Blocked
  end.

(** A [Handler] is itself an [IHandler]. *)
Definition Handler_obj (h : Handler) : obj :=
  OHandler (Closure_obj (_closure_ h)) (_receiver_ h).

End Normalisation.

Arguments OValue {W} v.
Arguments lambda_None {W} args.

(** ** Threads and conditions *)

(** A consumer thread runs against a [world]: the state it shares with the
    other threads, a clock, and what the other threads will do.  The others
    are seen where the consumer is suspended in [Condition.wait]: a [wake] is
    the list of their operations on the shared state while the consumer
    sleeps, and the time that goes by until it runs again (a notification, or
    the timeout running out).  A schedule is the list of the wake-ups still
    to come. *)
Section Threads.

Variables (S Act : Type).

(** How an operation of another thread changes the shared state. *)
Variable perform : Act -> S -> S.

Record wake : Type := mkWake { acts : list Act; elapsed : nat }.

Record world : Type := mkWorld {
  shared : S;
  clock : Z;                       (* what [time.time()] reads, in ticks *)
  sched : list wake;
  waits : list (option Z)          (* the timeout of each wait so far *)
}.

Definition performs (l : list Act) (s : S) : S :=
  fold_left (fun s a => perform a s) l s.

(** An operation on the shared state, run by the thread itself. *)
Definition lift {A} (c : M S A) : M world A :=
  fun w =>
    let (r, s) := c (shared w) in
    (r, mkWorld s (clock w) (sched w) (waits w)).

(** [time.time()] *)
Definition time_time : M world Z := gets clock.

(** [Condition.wait(timeout)], called with the lock held.  The thread sleeps
    through the next wake of the schedule.  When nothing more is scheduled, a
    wait with a timeout comes back once the timeout has run out (at once when
    it is not positive), and a wait without one never comes back. *)
Definition Condition_wait (timeout : option Z) : M world unit :=
  fun w =>
    let log := waits w ++ [timeout] in
    match sched w with
    | wk :: rest =>
        (Return tt,
         mkWorld (performs (acts wk) (shared w))
                 (clock w + Z.of_nat (elapsed wk)) rest log)
    | [] =>
        match timeout with
        | Some t =>
            (Return tt, mkWorld (shared w) (clock w + Z.max 0 t) [] log)
        | None =>
            (Blocked, mkWorld (shared w) (clock w) [] log)
        end
    end.

End Threads.

Arguments mkWake {Act} acts elapsed.
Arguments mkWorld {S Act} shared clock sched waits.
Arguments lift {S Act A} c w.
Arguments time_time {S Act} _.

(** Python's truth value of an optional number: [None] and [0] are false. *)
Definition truthy (timeout : option Z) : bool :=
  match timeout with
  | Some t => negb (t =? 0)%Z
  | None => false
  end.

(** [x >= end], where [end] may be [None]: comparing a number with [None]
    raises [TypeError]. *)
Definition py_ge {St} (x : Z) (end_ : option Z) : M St bool :=
  match end_ with
  | Some e => ret (e <=? x)%Z
  | None => raise TypeError
  end.

(** ** ListCollector *)

Module ListCollector.

Record t : Type := mk {
  _vec_ : list pyval;
  _cv_ : nat;                      (* how often the condition was notified *)
  _done_ : bool;
  timeout : option Z
}.

(** [ListCollector.__init__(timeout)] *)
Definition init (timeout : option Z) : t := mk [] 0 false timeout.

(** [call(x)]: [self._vec_.append(x)] *)
Definition call : callback t :=
  fun args =>
    match args with
    | [x] => modify (fun s => mk (_vec_ s ++ [x]) (_cv_ s) (_done_ s) (timeout s)) ;;;
             ret PyNone
    | _ => raise TypeError
    end.

(** [drop()]: [self._done_ = True; self._cv_.notify()], under the lock *)
Definition drop : callback t :=
  fun args =>
    match args with
    | [] => modify (fun s => mk (_vec_ s) (_cv_ s) true (timeout s)) ;;;
            modify (fun s => mk (_vec_ s) (Datatypes.S (_cv_ s)) (_done_ s) (timeout s)) ;;;
            ret PyNone
    | _ => raise TypeError
    end.

(** The [closure] property: [Closure((call, drop))] *)
Definition closure : outcome (Closure t) :=
  Closure_init (OTuple [OCallable call; OCallable drop]) None.

(** What the producers may do while a consumer waits. *)
Inductive action : Type :=
| ACall (x : pyval)
| ADrop.

Definition perform (a : action) (s : t) : t :=
  match a with
  | ACall x => snd (call [x] s)
  | ADrop => snd (drop [] s)
  end.

Definition cv_wait := Condition_wait perform.

(** The [receiver] property: the function [wait], of no argument.  It
    returns the list [self._vec_] itself. *)
Definition wait : M (world t action) pyval :=
  done <- gets (fun w => _done_ (shared w)) ;;
  (if negb done
   then (tmo <- gets (fun w => timeout (shared w)) ;; cv_wait tmo)
   else ret tt) ;;;
  vec <- gets (fun w => _vec_ (shared w)) ;;
  ret (PyList vec).

(** [wait] as the object the [receiver] property hands out: [def wait():]
    takes no argument, a call with one raises [TypeError]. *)
Definition receiver : callback (world t action) :=
  fun args =>
    match args with
    | [] => wait
    | _ => raise TypeError
    end.

(** A producer that runs [call(v1); ...; call(vn)], and one that drops. *)
Definition produce (vs : list pyval) (s : t) : t :=
  fold_left (fun s v => snd (call [v] s)) vs s.

Definition close (s : t) : t := snd (drop [] s).

(** The operations of the collector, run one after the other by one thread. *)
Inductive op : Type :=
| OpCall (x : pyval)
| OpDrop
| OpWait.

Definition step (o : op) (w : world t action) : world t action :=
  match o with
  | OpCall x => snd (lift (call [x]) w)
  | OpDrop => snd (lift (drop []) w)
  | OpWait => snd (receiver [] w)
  end.

Definition run (ops : list op) (w : world t action) : world t action :=
  fold_left (fun w o => step o w) ops w.

End ListCollector.

(** ** Queue *)

(** The right end of a [deque]: [Some (front, x)] when the deque is
    [front ++ [x]]. *)
Fixpoint unsnoc {A} (l : list A) : option (list A * A) :=
  match l with
  | [] => None
  | x :: l' =>
      match unsnoc l' with
      | None => Some ([], x)
      | Some (front, y) => Some (x :: front, y)
      end
  end.

Module Queue.

Record t : Type := mk {
  _vec_ : list pyval;              (* the deque, left end first *)
  _cv_ : nat;                      (* how often the condition was notified *)
  _done_ : bool
}.

(** [Queue.__init__(timeout)]: the argument is not used. *)
Definition init (timeout : option Z) : t := mk [] 0 false.

Definition notify : M t unit :=
  modify (fun s => mk (_vec_ s) (Datatypes.S (_cv_ s)) (_done_ s)).

(** [call(x)]: [self._vec_.append(x); self._cv_.notify()], under the lock *)
Definition call : callback t :=
  fun args =>
    match args with
    | [x] => modify (fun s => mk (_vec_ s ++ [x]) (_cv_ s) (_done_ s)) ;;;
             notify ;;;
             ret PyNone
    | _ => raise TypeError
    end.

(** [drop()]: [self._done_ = True; self._cv_.notify()], under the lock *)
Definition drop : callback t :=
  fun args =>
    match args with
    | [] => modify (fun s => mk (_vec_ s) (_cv_ s) true) ;;;
            notify ;;;
            ret PyNone
    | _ => raise TypeError
    end.

(** The [closure] property: [Closure((call, drop))] *)
Definition closure : outcome (Closure t) :=
  Closure_init (OTuple [OCallable call; OCallable drop]) None.

(** [self._vec_.pop()]: removes and returns the rightmost element, raises
    [IndexError] on an empty deque. *)
Definition pop : M t pyval :=
  fun s =>
    match unsnoc (_vec_ s) with
    | Some (front, x) => (Return x, mk front (_cv_ s) (_done_ s))
    | None => (Raise IndexError, s)
    end.

(** What the other threads may do while a consumer waits: the producers call
    and drop, another consumer takes a value. *)
Inductive action : Type :=
| ACall (x : pyval)
| ADrop
| APop.

Definition perform (a : action) (s : t) : t :=
  match a with
  | ACall x => snd (call [x] s)
  | ADrop => snd (drop [] s)
  | APop => snd (pop s)
  end.

Definition cv_wait := Condition_wait perform.

Definition done : M (world t action) bool := gets (fun w => _done_ (shared w)).

(** [try: return self._vec_.pop()  except IndexError: pass] *)
Definition try_pop : M (world t action) (option pyval) :=
  try_except (lift pop) is_IndexError.

(** [Queue.get(timeout)] *)
Definition get (timeout : option Z) : M (world t action) pyval :=
  r <- try_pop ;;
  match r with
  | Some x => ret x
  | None =>
      d <- done ;;
      if d then raise QueueClosed
      else
        cv_wait timeout ;;;
        r <- try_pop ;;
        match r with
        | Some x => ret x
        | None =>
            d <- done ;;
            if d then raise QueueClosed else raise TimeoutError
        end
  end.

(** The loop of [get_remaining] and the [return] that follows it; [fuel]
    bounds the number of times the body runs. *)
Fixpoint get_remaining_loop (fuel : nat) (timeout end_ : option Z)
  : M (world t action) pyval :=
  d <- done ;;
  if negb d then
    match fuel with
    | O => fun w => (Blocked, w)
    | Datatypes.S fuel' =>
        tmo <- (if truthy timeout
                then now <- time_time ;;
                     ret (option_map (fun t => (t - now)%Z) timeout)
                else ret None) ;;
        cv_wait tmo ;;;
        d <- done ;;
        if d then ret PyNone                               (* [return] *)
        else
          now <- time_time ;;
          late <- py_ge now end_ ;;
          if late then raise TimeoutError
          else get_remaining_loop fuel' timeout end_
    end
  else
    vec <- gets (fun w => _vec_ (shared w)) ;;
    ret (PyList vec).                                      (* [list(self._vec_)] *)

(** [Queue.get_remaining(timeout)] *)
Definition get_remaining (fuel : nat) (timeout : option Z)
  : M (world t action) pyval :=
  end_ <- match timeout with
          | Some t => now <- time_time ;; ret (Some (now + t)%Z)
          | None => ret None
          end ;;
  get_remaining_loop fuel timeout end_.

(** The world with another buffer. *)
Definition with_vec (vec : list pyval) (w : world t action) : world t action :=
  mkWorld (mk vec (_cv_ (shared w)) (_done_ (shared w)))
          (clock w) (sched w) (waits w).

(** A producer that runs [call(v1); ...; call(vn)], and one that drops. *)
Definition produce (vs : list pyval) (s : t) : t :=
  fold_left (fun s v => snd (call [v] s)) vs s.

Definition close (s : t) : t := snd (drop [] s).

(** A consumer that runs [get(timeout)] [n] times and keeps what it got. *)
Fixpoint get_n (n : nat) (timeout : option Z) : M (world t action) (list pyval) :=
  match n with
  | O => ret []
  | Datatypes.S n' =>
      x <- get timeout ;;
      xs <- get_n n' timeout ;;
      ret (x :: xs)
  end.

(** The operations of the queue, run one after the other by one thread. *)
Inductive op : Type :=
| OpCall (x : pyval)
| OpDrop
| OpGet (timeout : option Z)
| OpGetRemaining (fuel : nat) (timeout : option Z).

Definition step (o : op) (w : world t action) : world t action :=
  match o with
  | OpCall x => snd (lift (call [x]) w)
  | OpDrop => snd (lift (drop []) w)
  | OpGet timeout => snd (get timeout w)
  | OpGetRemaining fuel timeout => snd (get_remaining fuel timeout w)
  end.

Definition run (ops : list op) (w : world t action) : world t action :=
  fold_left (fun w o => step o w) ops w.






End Queue.

(** ** Callbacks used as examples *)

(** A finalizer that releases something once: the state says whether it is
    released already, and a second call raises. *)
Definition release_once : callback bool :=
  fun args released =>
    if released then (Raise RuntimeError, released)
    else (Return PyNone, true).

(** A callable that does nothing. *)
Definition idle {W} : callback W := fun _ => ret PyNone.

(** A pure function used as a callable of one argument. *)
Definition pure_fun {W} (f : pyval -> pyval) : callback W :=
  fun args =>
    match args with
    | [x] => ret (f x)
    | _ => raise TypeError
    end.

(** ** The scope of a closure *)

Section Scoped.

Variable W : Type.

Definition is_None (o : obj W) : bool :=
  match o with
  | OValue PyNone => true
  | _ => false
  end.

(** [IClosure.__enter__]: calls [self.drop] when it is not [None]; there is
    no [return], so the name bound by [as] is [None]. *)
Definition IClosure_enter (self : Closure W) : M W pyval :=
  let drop := _drop_ self in
  (if negb (is_None drop) then invoke drop [] else ret PyNone) ;;;
  ret PyNone.

(** [IClosure.__exit__]: the same body; it returns [None], so an exception
    of the block is not swallowed. *)
Definition IClosure_exit (self : Closure W) : M W pyval :=
  let drop := _drop_ self in
  (if negb (is_None drop) then invoke drop [] else ret PyNone) ;;;
  ret PyNone.

(** The statement [with cm as x: body]: [__enter__], then the block with
    what [__enter__] returned, then [__exit__], which also runs when the
    block raised; the exception of the block goes on afterwards, unless
    [__exit__] raises one of its own.  When [__enter__] raises, neither the
    block nor [__exit__] runs. *)
Definition with_as {A} (cm : Closure W) (body : pyval -> M W A) : M W A :=
  fun w =>
    match IClosure_enter cm w with
    | (Return x, w1) =>
        match body x w1 with
        | (Return a, w2) =>
            match IClosure_exit cm w2 with
            | (Return _, w3) => (Return a, w3)
            | (Raise e, w3) => (Raise e, w3)
            | (Blocked, w3) => (Blocked, w3)
            end
        | (Raise e, w2) =>
            match IClosure_exit cm w2 with
            | (Return _, w3) => (Raise e, w3)
            | (Raise e', w3) => (Raise e', w3)
            | (Blocked, w3) => (Blocked, w3)
            end
        | (Blocked, w2) => (Blocked, w2)
        end
    | (Raise e, w1) => (Raise e, w1)
    | (Blocked, w1) => (Blocked, w1)
    end.

(** A block that runs [closure.call(v)] for each [v] in turn. *)
Fixpoint call_each (closure : Closure W) (vs : list pyval) : M W pyval :=
  match vs with
  | [] => ret PyNone
  | v :: vs' => invoke (_call_ closure) [v] ;;; call_each closure vs'
  end.

End Scoped.

(** ** examples/z_pull.py *)

Module ZPull.

(** What [main] does to the outside: the calls into the zenoh library and the
    standard library, in the order they are made.  The library calls are
    taken to return. *)
Inductive event : Type :=
| EvInitLogger
| EvPrint (s : string)
| EvOpen
| EvDeclarePullSubscriber (key : string)
| EvPull
| EvSleep (seconds : nat)
| EvUndeclare
| EvClose.

Record io : Type := mkIo {
  stdin : string;                  (* what is left to read; then end of file *)
  trace : list event
}.

Definition emit (e : event) : M io unit :=
  modify (fun s => mkIo (stdin s) (trace s ++ [e])).

(** [sys.stdin.read(1)]: the next character, or the empty string at the end
    of the input. *)
Definition read1 : M io string :=
  fun s =>
    match stdin s with
    | EmptyString => (Return EmptyString, s)
    | String ch rest => (Return (String ch EmptyString), mkIo rest (trace s))
    end.

(** The loop of [main]; [fuel] bounds the number of times the body runs. *)
Fixpoint pull_loop (fuel : nat) (c : string) : M io unit :=
  if negb (String.eqb c "q"%string) then
    match fuel with
    | O => fun s => (Blocked, s)
    | Datatypes.S fuel' =>
        c' <- read1 ;;
        (if String.eqb c' EmptyString
         then emit (EvSleep 1)
         else emit EvPull) ;;;
        pull_loop fuel' c'
    end
  else ret tt.

(** [main()], for the key expression [key] of the command line. *)
Definition main (fuel : nat) (key : string) : M io unit :=
  emit EvInitLogger ;;;
  emit (EvPrint "Opening session..."%string) ;;;
  emit EvOpen ;;;
  emit (EvPrint ("Declaring Subscriber on '" ++ key ++ "'...")%string) ;;;
  emit (EvDeclarePullSubscriber key) ;;;
  emit (EvPrint "Press <enter> to pull data..."%string) ;;;
  pull_loop fuel (String Ascii.zero EmptyString) ;;;
  emit EvUndeclare ;;;
  emit EvClose.

(** The events before the loop. *)
Definition prelude (key : string) : list event :=
  [EvInitLogger; EvPrint "Opening session..."%string; EvOpen;
   EvPrint ("Declaring Subscriber on '" ++ key ++ "'...")%string;
   EvDeclarePullSubscriber key;
   EvPrint "Press <enter> to pull data..."%string].

(** Whether the character [q] occurs in a string. *)
Fixpoint has_q (s : string) : bool :=
  match s with
  | EmptyString => false
  | String ch rest => Ascii.eqb ch "q"%char || has_q rest
  end.

End ZPull.

(** ** Proof tools *)

(** Reduces the projections of the state records, and nothing else. *)
Ltac fields :=
  cbn [fst snd app Queue._vec_ Queue._cv_ Queue._done_
       ListCollector._vec_ ListCollector._cv_ ListCollector._done_
       ListCollector.timeout Queue.init ListCollector.init].

(** * Properties *)

(** ** The right end of a deque *)

Lemma unsnoc_app {A} (l : list A) (x : A) : unsnoc (l ++ [x]) = Some (l, x).
Proof.
  induction l as [|a l IH]; simpl; [reflexivity|].
  now rewrite IH.
Qed.



(** ** Queue: producers *)

Lemma Queue_call_state (x : pyval) (s : Queue.t) :
  Queue.call [x] s =
  (Return PyNone,
   Queue.mk (Queue._vec_ s ++ [x]) (S (Queue._cv_ s)) (Queue._done_ s)).
Proof. reflexivity. Qed.

Lemma Queue_drop_state (s : Queue.t) :
  Queue.drop [] s =
  (Return PyNone, Queue.mk (Queue._vec_ s) (S (Queue._cv_ s)) true).
Proof. reflexivity. Qed.

Lemma Queue_produce_state (vs : list pyval) (s : Queue.t) :
  Queue.produce vs s =
  Queue.mk (Queue._vec_ s ++ vs) (length vs + Queue._cv_ s) (Queue._done_ s).
Proof.
  unfold Queue.produce. revert s.
  induction vs as [|v vs IH]; intros [vec cv d]; simpl.
  - now rewrite app_nil_r.
  - rewrite IH. simpl. rewrite <- app_assoc. simpl. f_equal. lia.
Qed.

(** ** Queue.get *)

Lemma Queue_wait_cases (timeout : option Z) (w : world Queue.t Queue.action) :
  (exists w', Queue.cv_wait timeout w = (Return tt, w')) \/
  (exists w', Queue.cv_wait timeout w = (Blocked, w')
              /\ timeout = None /\ sched w = []).
Proof.
  unfold Queue.cv_wait, Condition_wait.
  destruct (sched w) as [|wk rest]; [destruct timeout|]; eauto.
Qed.

(** [get], case by case: the first [pop], the first test of [_done_], the
    wait, the second [pop] and the second test. *)
Lemma Queue_get_unfold (timeout : option Z) (w : world Queue.t Queue.action) :
  Queue.get timeout w =
  match unsnoc (Queue._vec_ (shared w)) with
  | Some (front, x) => (Return x, Queue.with_vec front w)
  | None =>
      if Queue._done_ (shared w) then (Raise QueueClosed, w)
      else
        match Queue.cv_wait timeout w with
        | (Return _, w') =>
            match unsnoc (Queue._vec_ (shared w')) with
            | Some (front, x) => (Return x, Queue.with_vec front w')
            | None =>
                if Queue._done_ (shared w') then (Raise QueueClosed, w')
                else (Raise TimeoutError, w')
            end
        | (Raise e, w') => (Raise e, w')
        | (Blocked, w') => (Blocked, w')
        end
  end.
Proof.
  destruct w as [[vec cv d] clk sch wts].
  unfold Queue.get, Queue.try_pop, try_except, lift, Queue.pop, bind,
    Queue.done, gets, ret, raise.
  simpl. destruct (unsnoc vec) as [[front x]|] eqn:E; [reflexivity|].
  simpl. destruct d; [reflexivity|].
  destruct (Queue.cv_wait timeout _) as [[[]|e|] [[vec' cv' d'] clk' sch' wts']];
    try reflexivity.
  simpl.
  destruct (unsnoc vec') as [[front x]|]; [reflexivity|].
  simpl. destruct d'; reflexivity.
Qed.

(** A value in the buffer is handed out at once: no wait, the clock and the
    schedule are as before. *)
Lemma Queue_get_buffered (timeout : option Z) (front : list pyval) (x : pyval)
      (cv : nat) (d : bool) (clk : Z) sch wts :
  Queue.get timeout (mkWorld (Queue.mk (front ++ [x]) cv d) clk sch wts) =
  (Return x, mkWorld (Queue.mk front cv d) clk sch wts).
Proof. rewrite Queue_get_unfold. simpl. now rewrite unsnoc_app. Qed.


(** ** Queue: the order of retrieval *)

Lemma Queue_get_n_rev (timeout : option Z) (vs front : list pyval)
      (cv : nat) (d : bool) (clk : Z) sch wts :
  Queue.get_n (length vs) timeout
    (mkWorld (Queue.mk (front ++ vs) cv d) clk sch wts) =
  (Return (rev vs), mkWorld (Queue.mk front cv d) clk sch wts).
Proof.
  induction vs as [|v vs IH] using rev_ind; [now rewrite app_nil_r|].
  rewrite length_app, Nat.add_comm. simpl.
  rewrite app_assoc. unfold bind at 1.
  rewrite Queue_get_buffered. unfold bind at 1. rewrite IH.
  unfold ret. now rewrite rev_unit.
Qed.

(** C7.  Retrieval takes from the end the values are appended to: after
    [call(v)] a [get], whatever its timeout (so also [get(timeout=0)]),
    returns [v] and leaves the buffer as it was before the call; and after
    [call(v1); ...; call(vn)] the next [n] calls of [get] return
    [vn, ..., v1], the last appended first. *)
Theorem Queue_get_lifo (timeout : option Z) (s : Queue.t) (clk : Z) sch wts :
  (forall v,
      Queue.get timeout (mkWorld (snd (Queue.call [v] s)) clk sch wts) =
      (Return v,
       mkWorld (Queue.mk (Queue._vec_ s) (S (Queue._cv_ s)) (Queue._done_ s))
               clk sch wts))
  /\ (forall v,
      fst (Queue.get (Some 0%Z)
             (mkWorld (snd (Queue.call [v] s)) clk sch wts)) = Return v)
  /\ (forall vs,
      Queue.get_n (length vs) timeout
        (mkWorld (Queue.produce vs s) clk sch wts) =
      (Return (rev vs),
       mkWorld (Queue.mk (Queue._vec_ s) (length vs + Queue._cv_ s)
                         (Queue._done_ s))
               clk sch wts)).
Proof.
  repeat split; intros.
  - rewrite Queue_call_state. simpl. apply Queue_get_buffered.
  - rewrite Queue_call_state. simpl. now rewrite Queue_get_buffered.
  - rewrite Queue_produce_state. apply Queue_get_n_rev.
Qed.

(** ** Queue.get_remaining *)

(** On a closed queue the loop is not entered: the whole buffer comes back as
    a list, and nothing changes. *)
Lemma Queue_get_remaining_closed (fuel : nat) (timeout : option Z)
      (vec : list pyval) (cv : nat) (clk : Z) sch wts :
  Queue.get_remaining fuel timeout
    (mkWorld (Queue.mk vec cv true) clk sch wts) =
  (Return (PyList vec), mkWorld (Queue.mk vec cv true) clk sch wts).
Proof. destruct fuel, timeout; reflexivity. Qed.

(** C1 (evaluation at the failing input).  A [get_remaining] that finds the
    queue open goes to sleep; when the wake-up is a [drop] of the producer,
    the bare [return] inside the loop hands [None] to the caller, whatever
    the buffer holds and whatever the timeout. *)
Theorem Queue_get_remaining_woken_by_drop (fuel : nat) (timeout : option Z)
      (vec : list pyval) (cv : nat) (clk : Z) (late : nat) rest :
  fst (Queue.get_remaining (S fuel) timeout
         (mkWorld (Queue.mk vec cv false) clk
                  (mkWake [Queue.ADrop] late :: rest) [])) = Return PyNone
  /\ Queue._vec_ (shared (snd (Queue.get_remaining (S fuel) timeout
         (mkWorld (Queue.mk vec cv false) clk
                  (mkWake [Queue.ADrop] late :: rest) [])))) = vec.
Proof.
  unfold Queue.get_remaining.
  destruct timeout as [t|]; simpl; unfold bind; simpl.
  - destruct (negb (t =? 0)%Z); simpl; auto.
  - auto.
Qed.

(** Without a timeout the deadline is [None]: a sleeper woken by a [call]
    compares the clock with it, which raises [TypeError]. *)
Lemma Queue_get_remaining_woken_by_call (fuel : nat) (x : pyval)
      (vec : list pyval) (cv : nat) (clk : Z) (late : nat) rest :
  fst (Queue.get_remaining (S fuel) None
         (mkWorld (Queue.mk vec cv false) clk
                  (mkWake [Queue.ACall x] late :: rest) [])) = Raise TypeError.
Proof. reflexivity. Qed.

(** ** ListCollector *)

Lemma ListCollector_call_state (x : pyval) (s : ListCollector.t) :
  ListCollector.call [x] s =
  (Return PyNone,
   ListCollector.mk (ListCollector._vec_ s ++ [x]) (ListCollector._cv_ s)
                    (ListCollector._done_ s) (ListCollector.timeout s)).
Proof. reflexivity. Qed.

Lemma ListCollector_drop_state (s : ListCollector.t) :
  ListCollector.drop [] s =
  (Return PyNone,
   ListCollector.mk (ListCollector._vec_ s) (S (ListCollector._cv_ s))
                    true (ListCollector.timeout s)).
Proof. reflexivity. Qed.

Lemma ListCollector_produce_state (vs : list pyval) (s : ListCollector.t) :
  ListCollector.produce vs s =
  ListCollector.mk (ListCollector._vec_ s ++ vs) (ListCollector._cv_ s)
                   (ListCollector._done_ s) (ListCollector.timeout s).
Proof.
  unfold ListCollector.produce. revert s.
  induction vs as [|v vs IH]; intros [vec cv d tmo]; simpl.
  - now rewrite app_nil_r.
  - rewrite IH. simpl. now rewrite <- app_assoc.
Qed.

(** [wait], case by case. *)
Lemma ListCollector_wait_unfold (w : world ListCollector.t ListCollector.action) :
  ListCollector.wait w =
  if ListCollector._done_ (shared w)
  then (Return (PyList (ListCollector._vec_ (shared w))), w)
  else
    match ListCollector.cv_wait (ListCollector.timeout (shared w)) w with
    | (Return _, w') => (Return (PyList (ListCollector._vec_ (shared w'))), w')
    | (Raise e, w') => (Raise e, w')
    | (Blocked, w') => (Blocked, w')
    end.
Proof.
  unfold ListCollector.wait, bind, gets, ret.
  destruct (ListCollector._done_ (shared w)); simpl; [reflexivity|].
  destruct (ListCollector.cv_wait _ w) as [[[]|e|] w']; reflexivity.
Qed.

Lemma ListCollector_wait_closed (vec : list pyval) (cv : nat)
      (tmo : option Z) (clk : Z) sch wts :
  ListCollector.wait (mkWorld (ListCollector.mk vec cv true tmo) clk sch wts) =
  (Return (PyList vec), mkWorld (ListCollector.mk vec cv true tmo) clk sch wts).
Proof. now rewrite ListCollector_wait_unfold. Qed.

(** C3.  After [call(v1); ...; call(vn); drop()] on a fresh collector, [wait]
    returns the list [v1, ..., vn], in the order of the calls; it does so at
    once, whatever the timeout of the collector and whatever the other
    threads would do next. *)
Theorem ListCollector_wait_after_drop (tmo : option Z) (vs : list pyval)
      (clk : Z) sch wts :
  ListCollector.wait
    (mkWorld (ListCollector.close
                (ListCollector.produce vs (ListCollector.init tmo)))
             clk sch wts) =
  (Return (PyList vs),
   mkWorld (ListCollector.close
              (ListCollector.produce vs (ListCollector.init tmo)))
           clk sch wts).
Proof.
  rewrite ListCollector_produce_state. unfold ListCollector.close.
  rewrite ListCollector_drop_state. simpl.
  apply ListCollector_wait_closed.
Qed.

(** C8.  [wait] has no error path.  In every world it either returns the
    buffer as it stands when the wait is over, or (no timeout, collector
    open, nobody ever wakes it) it does not come back; it never raises.  On a
    closed collector it returns the buffer at once.  On an open collector
    with a timeout it always returns: what the producers appended while it
    slept is in the list, and when nothing happened before the timeout ran
    out the list is the buffer as it was, possibly empty. *)
Theorem ListCollector_wait_never_raises
        (w : world ListCollector.t ListCollector.action) :
  (exists w',
      ListCollector.wait w =
        (Return (PyList (ListCollector._vec_ (shared w'))), w')
      \/ (ListCollector.wait w = (Blocked, w')
          /\ ListCollector._done_ (shared w) = false
          /\ ListCollector.timeout (shared w) = None
          /\ sched w = []))
  /\ (forall vec cv tmo clk sch wts,
      ListCollector.wait
        (mkWorld (ListCollector.mk vec cv true tmo) clk sch wts) =
      (Return (PyList vec),
       mkWorld (ListCollector.mk vec cv true tmo) clk sch wts))
  /\ (forall vec cv t clk wts,
      ListCollector.wait
        (mkWorld (ListCollector.mk vec cv false (Some t)) clk [] wts) =
      (Return (PyList vec),
       mkWorld (ListCollector.mk vec cv false (Some t))
               (clk + Z.max 0 t) [] (wts ++ [Some t])))
  /\ (forall vec cv tmo clk wk rest wts,
      ListCollector.wait
        (mkWorld (ListCollector.mk vec cv false tmo) clk (wk :: rest) wts) =
      (Return (PyList
                 (ListCollector._vec_
                    (performs ListCollector.perform (acts wk)
                       (ListCollector.mk vec cv false tmo)))),
       mkWorld (performs ListCollector.perform (acts wk)
                  (ListCollector.mk vec cv false tmo))
               (clk + Z.of_nat (elapsed wk)) rest (wts ++ [tmo]))).
Proof.
  repeat split; intros; try reflexivity.
  rewrite ListCollector_wait_unfold.
  destruct (ListCollector._done_ (shared w)) eqn:D; [eauto|].
  unfold ListCollector.cv_wait, Condition_wait.
  destruct (sched w) as [|wk rest] eqn:Sch.
  - destruct (ListCollector.timeout (shared w)) eqn:T; eauto 10.
  - eauto.
Qed.

(** ** The timeout of a ListCollector *)

Lemma ListCollector_perform_keeps (a : ListCollector.action)
      (s : ListCollector.t) :
  ListCollector.timeout (ListCollector.perform a s) = ListCollector.timeout s
  /\ (ListCollector._done_ s = true ->
      ListCollector._done_ (ListCollector.perform a s) = true).
Proof. destruct a, s; simpl; auto. Qed.

Lemma ListCollector_performs_keeps (l : list ListCollector.action)
      (s : ListCollector.t) :
  ListCollector.timeout (performs ListCollector.perform l s)
  = ListCollector.timeout s
  /\ (ListCollector._done_ s = true ->
      ListCollector._done_ (performs ListCollector.perform l s) = true).
Proof.
  unfold performs. revert s.
  induction l as [|a l IH]; intros s; simpl; [auto|].
  destruct (IH (ListCollector.perform a s)) as [IH1 IH2].
  destruct (ListCollector_perform_keeps a s) as [H1 H2].
  split; [congruence | auto].
Qed.

(** What one operation keeps: the timeout of the collector, the fact that
    every wait so far used it, and the closed flag once it is set. *)
Lemma ListCollector_step_keeps (tmo : option Z) (o : ListCollector.op)
      (w : world ListCollector.t ListCollector.action) :
  ListCollector.timeout (shared w) = tmo ->
  Forall (fun x => x = tmo) (waits w) ->
  ListCollector.timeout (shared (ListCollector.step o w)) = tmo
  /\ Forall (fun x => x = tmo) (waits (ListCollector.step o w))
  /\ (ListCollector._done_ (shared w) = true ->
      ListCollector._done_ (shared (ListCollector.step o w)) = true).
Proof.
  intros Ht Hw. destruct w as [[vec cv d t0] clk sch wts]. simpl in *.
  destruct o; simpl; auto.
  unfold ListCollector.receiver. rewrite ListCollector_wait_unfold. simpl.
  destruct d; simpl; [auto|].
  unfold ListCollector.cv_wait, Condition_wait. simpl.
  assert (Hlog : Forall (fun x => x = tmo) (wts ++ [t0]))
    by (apply Forall_app; split; [assumption | constructor; auto]).
  destruct sch as [|wk rest]; [destruct t0|]; simpl;
    repeat split; auto; try discriminate.
  rewrite <- Ht.
  apply (ListCollector_performs_keeps (acts wk) (ListCollector.mk vec cv false t0)).
Qed.

Lemma ListCollector_run_keeps (tmo : option Z) (ops : list ListCollector.op)
      (w : world ListCollector.t ListCollector.action) :
  ListCollector.timeout (shared w) = tmo ->
  Forall (fun x => x = tmo) (waits w) ->
  ListCollector.timeout (shared (ListCollector.run ops w)) = tmo
  /\ Forall (fun x => x = tmo) (waits (ListCollector.run ops w))
  /\ (ListCollector._done_ (shared w) = true ->
      ListCollector._done_ (shared (ListCollector.run ops w)) = true).
Proof.
  unfold ListCollector.run. revert w.
  induction ops as [|o ops IH]; intros w Ht Hw; simpl; [auto|].
  destruct (ListCollector_step_keeps o w Ht Hw) as (H1 & H2 & H3).
  destruct (IH _ H1 H2) as (I1 & I2 & I3). auto.
Qed.

(** What a [wait] adds to the log of the waits: nothing on a closed
    collector, the timeout the collector holds on an open one. *)
Lemma ListCollector_wait_log (w : world ListCollector.t ListCollector.action) :
  waits (snd (ListCollector.wait w)) =
  if ListCollector._done_ (shared w) then waits w
  else waits w ++ [ListCollector.timeout (shared w)].
Proof.
  rewrite ListCollector_wait_unfold.
  destruct (ListCollector._done_ (shared w)); [reflexivity|].
  unfold ListCollector.cv_wait, Condition_wait.
  destruct (sched w) as [|wk rest];
    [destruct (ListCollector.timeout (shared w))|]; reflexivity.
Qed.

(** C10.  The receiver of a ListCollector takes no argument: called with
    none it is [wait], called with one or more it raises [TypeError].  The
    timeout of its waits is the one given to the constructor.  After any
    operations on a collector built with [tmo], in any world, the collector
    still holds [tmo] and every [Condition.wait] made so far was made with
    [tmo]; a [wait] called then makes no [Condition.wait] when the collector
    is closed, and exactly one, with [tmo], when it is open.  That timeout is
    what bounds the sleep: on an open collector that nobody touches, [wait]
    comes back with the buffer once [tmo] has gone by on the clock (at once
    when it is not positive), and does not come back when [tmo] is
    [None]. *)
Theorem ListCollector_timeout_fixed (tmo : option Z)
        (ops : list ListCollector.op) (clk : Z) sch :
  (forall w, ListCollector.receiver [] w = ListCollector.wait w)
  /\ (forall x args w,
         ListCollector.receiver (x :: args) w = (Raise TypeError, w))
  /\ ListCollector.timeout
       (shared (ListCollector.run ops
                  (mkWorld (ListCollector.init tmo) clk sch []))) = tmo
  /\ Forall (fun x => x = tmo)
       (waits (ListCollector.run ops
                 (mkWorld (ListCollector.init tmo) clk sch [])))
  /\ waits (snd (ListCollector.wait
                   (ListCollector.run ops
                      (mkWorld (ListCollector.init tmo) clk sch []))))
     = (if ListCollector._done_
             (shared (ListCollector.run ops
                        (mkWorld (ListCollector.init tmo) clk sch [])))
        then waits (ListCollector.run ops
                      (mkWorld (ListCollector.init tmo) clk sch []))
        else waits (ListCollector.run ops
                      (mkWorld (ListCollector.init tmo) clk sch []))
             ++ [tmo])
  /\ (forall vec cv wts,
         ListCollector.wait
           (mkWorld (ListCollector.mk vec cv false tmo) clk [] wts) =
         match tmo with
         | Some t =>
             (Return (PyList vec),
              mkWorld (ListCollector.mk vec cv false tmo)
                      (clk + Z.max 0 t) [] (wts ++ [tmo]))
         | None =>
             (Blocked,
              mkWorld (ListCollector.mk vec cv false tmo) clk []
                      (wts ++ [tmo]))
         end).
Proof.
  split; [reflexivity|]. split; [reflexivity|].
  destruct (ListCollector_run_keeps (tmo := tmo) ops
              (mkWorld (ListCollector.init tmo) clk sch []))
    as (H1 & H2 & _); [reflexivity | constructor |].
  split; [assumption|]. split; [assumption|]. split.
  - rewrite ListCollector_wait_log. now rewrite H1.
  - intros vec cv wts. destruct tmo; reflexivity.
Qed.

(** A wait on an open collector does use that timeout. *)
Lemma ListCollector_wait_logs (tmo : option Z) (clk : Z) sch :
  waits (snd (ListCollector.wait
                (mkWorld (ListCollector.init tmo) clk sch []))) = [tmo].
Proof. destruct sch as [|wk rest]; [destruct tmo|]; reflexivity. Qed.

(** ** The closed flag *)

Lemma Queue_perform_done (a : Queue.action) (s : Queue.t) :
  Queue._done_ s = true -> Queue._done_ (Queue.perform a s) = true.
Proof.
  destruct a, s as [vec cv d]; simpl; auto.
  unfold Queue.pop; simpl. destruct (unsnoc vec) as [[front x]|]; auto.
Qed.

Lemma Queue_performs_done (l : list Queue.action) (s : Queue.t) :
  Queue._done_ s = true -> Queue._done_ (performs Queue.perform l s) = true.
Proof.
  unfold performs. revert s.
  induction l as [|a l IH]; intros s H; simpl; [assumption|].
  apply IH. now apply Queue_perform_done.
Qed.

(** On a closed queue no operation sleeps, and none opens it again. *)
Lemma Queue_step_done (o : Queue.op) (w : world Queue.t Queue.action) :
  Queue._done_ (shared w) = true ->
  Queue._done_ (shared (Queue.step o w)) = true.
Proof.
  destruct w as [[vec cv d] clk sch wts]. simpl. intros ->.
  destruct o as [x| |tmo|fuel tmo]; simpl; auto.
  - rewrite Queue_get_unfold. simpl.
    destruct (unsnoc vec) as [[front x]|]; reflexivity.
  - now rewrite Queue_get_remaining_closed.
Qed.

Lemma Queue_run_done (ops : list Queue.op) (w : world Queue.t Queue.action) :
  Queue._done_ (shared w) = true ->
  Queue._done_ (shared (Queue.run ops w)) = true.
Proof.
  unfold Queue.run. revert w.
  induction ops as [|o ops IH]; intros w H; simpl; [assumption|].
  apply IH. now apply Queue_step_done.
Qed.

Lemma ListCollector_step_done (o : ListCollector.op)
      (w : world ListCollector.t ListCollector.action) :
  ListCollector._done_ (shared w) = true ->
  ListCollector._done_ (shared (ListCollector.step o w)) = true.
Proof.
  destruct w as [[vec cv d tmo] clk sch wts]. simpl. intros ->.
  destruct o; reflexivity.
Qed.

Lemma ListCollector_run_done (ops : list ListCollector.op)
      (w : world ListCollector.t ListCollector.action) :
  ListCollector._done_ (shared w) = true ->
  ListCollector._done_ (shared (ListCollector.run ops w)) = true.
Proof.
  unfold ListCollector.run. revert w.
  induction ops as [|o ops IH]; intros w H; simpl; [assumption|].
  apply IH. now apply ListCollector_step_done.
Qed.

(** C9.  Closed stays closed, for the queue and for the collector: whatever
    one thread runs on a closed one ([call], [drop], [get], [get_remaining],
    [wait]) and whatever the other threads do to it in the meantime, the flag
    is still set afterwards.  What was appended before the [drop] can still
    be taken: from the queue by as many calls of [get] as there are values
    (after which [get] raises [QueueClosed]) or in one list by
    [get_remaining], from the collector by [wait].  And [call] still works on
    a closed one: it returns, the value is appended, and the next [get] (or
    [wait]) hands it out. *)
Theorem closed_is_permanent :
  (* the flag, under the operations of one thread *)
  (forall ops vec cv clk sch wts,
      Queue._done_
        (shared (Queue.run ops (mkWorld (Queue.mk vec cv true) clk sch wts)))
      = true)
  /\ (forall ops vec cv tmo clk sch wts,
      ListCollector._done_
        (shared (ListCollector.run ops
                   (mkWorld (ListCollector.mk vec cv true tmo) clk sch wts)))
      = true)
  (* the flag, under the operations of the other threads *)
  /\ (forall l vec cv,
      Queue._done_ (performs Queue.perform l (Queue.mk vec cv true)) = true)
  /\ (forall l vec cv tmo,
      ListCollector._done_
        (performs ListCollector.perform l (ListCollector.mk vec cv true tmo))
      = true)
  (* values appended before the drop *)
  /\ (forall vs tmo0 timeout clk sch wts,
      let w := mkWorld (Queue.close (Queue.produce vs (Queue.init tmo0)))
                       clk sch wts in
      fst (Queue.get_n (length vs) timeout w) = Return (rev vs)
      /\ fst (Queue.get timeout (snd (Queue.get_n (length vs) timeout w)))
         = Raise QueueClosed
      /\ (forall fuel, fst (Queue.get_remaining fuel timeout w)
                       = Return (PyList vs)))
  /\ (forall vs tmo clk sch wts,
      fst (ListCollector.wait
             (mkWorld (ListCollector.close
                         (ListCollector.produce vs (ListCollector.init tmo)))
                      clk sch wts)) = Return (PyList vs))
  (* values appended after the drop *)
  /\ (forall v vec cv timeout clk sch wts,
      fst (Queue.call [v] (Queue.mk vec cv true)) = Return PyNone
      /\ Queue.get timeout
           (mkWorld (snd (Queue.call [v] (Queue.mk vec cv true))) clk sch wts)
         = (Return v, mkWorld (Queue.mk vec (S cv) true) clk sch wts)
      /\ (forall fuel,
          fst (Queue.get_remaining fuel timeout
                 (mkWorld (snd (Queue.call [v] (Queue.mk vec cv true)))
                          clk sch wts)) = Return (PyList (vec ++ [v]))))
  /\ (forall v vec cv tmo clk sch wts,
      fst (ListCollector.call [v] (ListCollector.mk vec cv true tmo))
      = Return PyNone
      /\ fst (ListCollector.wait
                (mkWorld (snd (ListCollector.call [v]
                                 (ListCollector.mk vec cv true tmo)))
                         clk sch wts)) = Return (PyList (vec ++ [v]))).
Proof.
  split; [intros; now apply Queue_run_done|].
  split.
  { intros ops vec cv tmo clk sch wts.
    now apply ListCollector_run_done. }
  split; [intros; now apply Queue_performs_done|].
  split; [intros; now apply ListCollector_performs_keeps|].
  split.
  { intros vs tmo0 timeout clk sch wts w. subst w.
    rewrite Queue_produce_state. unfold Queue.close.
    rewrite Queue_drop_state. fields.
    rewrite (Queue_get_n_rev timeout vs []). fields.
    repeat split. intros fuel. now rewrite Queue_get_remaining_closed. }
  split.
  { intros. rewrite ListCollector_produce_state. unfold ListCollector.close.
    rewrite ListCollector_drop_state. fields.
    now rewrite ListCollector_wait_closed. }
  split.
  { intros. rewrite Queue_call_state. fields.
    rewrite Queue_get_buffered. repeat split.
    intros fuel. now rewrite Queue_get_remaining_closed. }
  intros. rewrite ListCollector_call_state. fields.
  now rewrite ListCollector_wait_closed.
Qed.

(** ** Closure and Handler: the accepted inputs *)

Section Shapes.

Variable W : Type.
Implicit Types (c d f g r : obj W) (k : callback W) (ta : option (obj W)).

Lemma Closure_init_pair c d ta :
  Closure_init (OTuple [c; d]) ta =
  Return (mkClosure
            match ta with Some f => OCallable (adapted f c) | None => c end d).
Proof. destruct ta; reflexivity. Qed.

Lemma Closure_init_closure c d ta :
  Closure_init (OClosure c d) ta =
  Return (mkClosure
            match ta with Some f => OCallable (adapted f c) | None => c end d).
Proof. destruct ta; reflexivity. Qed.

Lemma Closure_init_handler c d r ta :
  Closure_init (OHandler (OClosure c d) r) ta =
  Closure_init (OClosure c d) ta.
Proof. reflexivity. Qed.

Lemma Closure_init_callable k ta :
  Closure_init (OCallable k) ta =
  Return (mkClosure
            match ta with
            | Some f => OCallable (adapted f (OCallable k))
            | None => OCallable k
            end (OCallable lambda_None)).
Proof. destruct ta; reflexivity. Qed.

(** C5 (amended).  Without a type adaptor, [Closure] keeps what it is given:
    a bare callable becomes the [call], with a [drop] that does nothing; of a
    pair, of a closure and of a handler (through its closure) the [call] and
    the [drop] are the very objects of the input.  [Handler] passes the
    closure part of each of its shapes through [Closure] and keeps the
    receiver.  An input that is neither a handler, a closure, a tuple nor a
    callable (an integer, say) makes both constructors raise [TypeError],
    with or without an adaptor. *)
Theorem Closure_accepts_shapes c d r k :
  Closure_init (OCallable k) None
  = Return (mkClosure (OCallable k) (OCallable lambda_None))
  /\ (forall w : W, lambda_None [] w = (Return PyNone, w))
  /\ Closure_init (OTuple [c; d]) None = Return (mkClosure c d)
  /\ Closure_init (OClosure c d) None = Return (mkClosure c d)
  /\ Closure_init (OHandler (OClosure c d) r) None = Return (mkClosure c d)
  /\ (forall cl : Closure W, Closure_init (Closure_obj cl) None = Return cl)
  /\ (forall h : Handler W,
         Closure_init (Handler_obj h) None = Return (_closure_ h)
         /\ Handler_init (Handler_obj h) None = Return h)
  /\ Handler_init (OCallable k) None
     = Return (mkHandler (mkClosure (OCallable k) (OCallable lambda_None))
                         (OValue PyNone))
  /\ Handler_init (OTuple [OCallable k; d]) None
     = Return (mkHandler (mkClosure (OCallable k) d) (OValue PyNone))
  /\ Handler_init (OClosure c d) None
     = Return (mkHandler (mkClosure c d) (OValue PyNone))
  /\ Handler_init (OTuple [OClosure c d; r]) None
     = Return (mkHandler (mkClosure c d) r)
  /\ Handler_init (OTuple [OCallable k; d; r]) None
     = Return (mkHandler (mkClosure (OCallable k) d) r)
  /\ (forall v ta,
         Closure_init (OValue v) ta = Raise TypeError
         /\ Handler_init (OValue v) ta = Raise TypeError).
Proof.
  repeat split; try reflexivity.
  - destruct cl; reflexivity.
  - destruct h as [[? ?] ?]; reflexivity.
  - destruct h as [[? ?] ?]; reflexivity.
Qed.

(** C6.  With a type adaptor [f], the [call] of the closure is the lambda
    that first calls [f] on the arguments and then the wrapped [call] on the
    one value [f] returned; an exception of [f] comes out as it is and the
    wrapped [call] is not run.  For a function [fa] as adaptor and a callable
    [k], calling the closure with [x] is [k(fa(x))].  The [drop] is the
    object of the input, for every shape: the adaptor is not in it. *)
Theorem Closure_adaptor_composes f g d r k :
  Closure_init (OTuple [g; d]) (Some f)
  = Return (mkClosure (OCallable (adapted f g)) d)
  /\ Closure_init (OClosure g d) (Some f)
     = Return (mkClosure (OCallable (adapted f g)) d)
  /\ Closure_init (OHandler (OClosure g d) r) (Some f)
     = Return (mkClosure (OCallable (adapted f g)) d)
  /\ Closure_init (OCallable k) (Some f)
     = Return (mkClosure (OCallable (adapted f (OCallable k)))
                         (OCallable lambda_None))
  /\ Handler_init (OTuple [OCallable k; d; r]) (Some f)
     = Return (mkHandler (mkClosure (OCallable (adapted f (OCallable k))) d) r)
  /\ (forall args (w : W),
         invoke (OCallable (adapted f g)) args w =
         match invoke f args w with
         | (Return y, w') => invoke g [y] w'
         | (Raise e, w') => (Raise e, w')
         | (Blocked, w') => (Blocked, w')
         end)
  /\ (forall (fa : pyval -> pyval) (x : pyval) (w : W),
         invoke (OCallable (adapted (OCallable (pure_fun fa)) (OCallable k)))
                [x] w
         = k [fa x] w).
Proof. repeat split; try reflexivity. Qed.

End Shapes.

(** C5 (counterexample).  A triple is none of the shapes [Closure] accepts,
    and [Closure] does not raise [TypeError] on it: unpacking it into two
    names raises [ValueError].  [Handler] on the empty tuple raises
    [IndexError]. *)
Lemma Closure_triple_is_ValueError :
  Closure_init (OTuple [OCallable (@idle unit); OCallable idle; OValue PyNone])
               None
  = Raise ValueError
  /\ Raise (A := Closure unit) ValueError <> Raise TypeError
  /\ Handler_init (OTuple (@nil (obj unit))) None = Raise IndexError.
Proof. repeat split; try reflexivity. discriminate. Qed.

(** ** Dropping twice *)

(** C4 (counterexample).  A closure built from a pair forwards the [drop] it
    was given; with [release_once] as the finalizer the first [drop()]
    returns and the second raises. *)
Lemma user_finalizer_raises_on_second_drop :
  exists c,
    Closure_init (OTuple [OCallable idle; OCallable release_once]) None
    = Return c
    /\ invoke (_drop_ c) [] false = (Return PyNone, true)
    /\ invoke (_drop_ c) [] true = (Raise RuntimeError, true).
Proof. eexists. repeat split. Qed.

(** C4 (amended).  On a queue and on a collector, through the closure their
    [closure] property builds (and through a [Closure] built from them as
    handlers), two calls of [drop()] both return; the first one sets the
    closed flag and leaves the buffer alone, the second one changes neither
    (it notifies the condition once more).  The [drop] of a closure built
    from a bare callable does nothing at all, however often it is called.  A
    closure built from a pair, a closure or a handler has the [drop] it was
    given, unchanged. *)
Theorem drop_twice :
  (exists c,
      Queue.closure = Return c
      /\ (forall r, Closure_init (OHandler (Closure_obj c) r) None = Return c)
      /\ forall s,
          exists s1 s2,
            invoke (_drop_ c) [] s = (Return PyNone, s1)
            /\ invoke (_drop_ c) [] s1 = (Return PyNone, s2)
            /\ Queue._vec_ s1 = Queue._vec_ s
            /\ Queue._done_ s1 = true
            /\ Queue._vec_ s2 = Queue._vec_ s1
            /\ Queue._done_ s2 = Queue._done_ s1)
  /\ (exists c,
      ListCollector.closure = Return c
      /\ (forall r, Closure_init (OHandler (Closure_obj c) r) None = Return c)
      /\ forall s,
          exists s1 s2,
            invoke (_drop_ c) [] s = (Return PyNone, s1)
            /\ invoke (_drop_ c) [] s1 = (Return PyNone, s2)
            /\ ListCollector._vec_ s1 = ListCollector._vec_ s
            /\ ListCollector._done_ s1 = true
            /\ ListCollector._vec_ s2 = ListCollector._vec_ s1
            /\ ListCollector._done_ s2 = ListCollector._done_ s1)
  /\ (forall (W : Type) (k : callback W) (ta : option (obj W)),
      exists c,
        Closure_init (OCallable k) ta = Return c
        /\ forall w, invoke (_drop_ c) [] w = (Return PyNone, w))
  /\ (forall (W : Type) (call d r : obj W) (ta : option (obj W)),
      (exists c, Closure_init (OTuple [call; d]) ta = Return c /\ _drop_ c = d)
      /\ (exists c, Closure_init (OClosure call d) ta = Return c
                    /\ _drop_ c = d)
      /\ (exists c, Closure_init (OHandler (OClosure call d) r) ta = Return c
                    /\ _drop_ c = d)).
Proof.
  split.
  { eexists. split; [reflexivity|]. split; [reflexivity|].
    intros s. do 2 eexists. cbn [_drop_ invoke].
    rewrite !Queue_drop_state. fields. repeat split. }
  split.
  { eexists. split; [reflexivity|]. split; [reflexivity|].
    intros s. do 2 eexists. cbn [_drop_ invoke].
    rewrite !ListCollector_drop_state. fields. repeat split. }
  split.
  { intros W k ta. rewrite Closure_init_callable. eexists.
    split; [reflexivity|]. reflexivity. }
  intros W call d r ta. rewrite Closure_init_handler.
  rewrite Closure_init_pair, Closure_init_closure.
  repeat split; eexists; split; reflexivity.
Qed.

(** ** Queue.get_remaining: the deadline *)

(** One round of the loop of [get_remaining] on an open queue. *)
Lemma Queue_get_remaining_loop_unfold (fuel : nat) (timeout end_ : option Z)
      (w : world Queue.t Queue.action) :
  Queue._done_ (shared w) = false ->
  Queue.get_remaining_loop (S fuel) timeout end_ w =
  match Queue.cv_wait
          (if truthy timeout
           then option_map (fun t => (t - clock w)%Z) timeout
           else None) w with
  | (Return _, w1) =>
      if Queue._done_ (shared w1) then (Return PyNone, w1)
      else
        match end_ with
        | None => (Raise TypeError, w1)
        | Some e =>
            if (e <=? clock w1)%Z then (Raise TimeoutError, w1)
            else Queue.get_remaining_loop fuel timeout end_ w1
        end
  | (Raise e, w1) => (Raise e, w1)
  | (Blocked, w1) => (Blocked, w1)
  end.
Proof.
  intros D. cbn [Queue.get_remaining_loop].
  unfold bind at 1. unfold Queue.done at 1, gets at 1. rewrite D.
  cbn [negb]. unfold bind at 1.
  assert (E : (if truthy timeout
               then now <- time_time;;
                    ret (option_map (fun t => (t - now)%Z) timeout)
               else ret None) w
              = (Return (if truthy timeout
                         then option_map (fun t => (t - clock w)%Z) timeout
                         else None), w))
    by (destruct (truthy timeout); reflexivity).
  rewrite E. unfold bind at 1.
  destruct (Queue.cv_wait _ w) as [[[]|e|] w1]; try reflexivity.
  unfold bind at 1. unfold Queue.done at 1, gets at 1.
  destruct (Queue._done_ (shared w1)); [reflexivity|].
  unfold bind at 1. unfold time_time at 1, gets at 1.
  destruct end_ as [e|]; [|reflexivity].
  unfold bind at 1. unfold py_ge, ret at 1.
  destruct (e <=? clock w1)%Z; reflexivity.
Qed.

Lemma Queue_get_remaining_loop_late (fuel : nat) (timeout end_ : option Z)
      (w w' : world Queue.t Queue.action) :
  Queue.get_remaining_loop fuel timeout end_ w = (Raise TimeoutError, w') ->
  exists e, end_ = Some e /\ (e <= clock w')%Z
            /\ Queue._done_ (shared w') = false.
Proof.
  revert w. induction fuel as [|fuel IH]; intros w H.
  - cbn in H. unfold bind, Queue.done, gets in H.
    destruct (Queue._done_ (shared w)); discriminate.
  - destruct (Queue._done_ (shared w)) eqn:D.
    + cbn in H. unfold bind, Queue.done, gets in H. rewrite D in H.
      discriminate.
    + rewrite (Queue_get_remaining_loop_unfold fuel timeout end_ w D) in H.
      match type of H with
      | context [Queue.cv_wait ?tmo w] =>
          destruct (Queue_wait_cases tmo w) as [[w1 Hw]|(w1 & Hw & _)];
          rewrite Hw in H; [|discriminate]
      end.
      destruct (Queue._done_ (shared w1)) eqn:D1; [discriminate|].
      destruct end_ as [e|]; [|discriminate].
      destruct (e <=? clock w1)%Z eqn:L.
      * injection H as <-. apply Z.leb_le in L. exists e. auto.
      * eauto.
Qed.

(** X14.  [TimeoutError] comes only with a timeout, only past the deadline
    (the clock at the call plus the timeout), and only from a queue that is
    still open then. *)
Lemma Queue_get_remaining_timeout_is_late (fuel : nat) (timeout : option Z)
      (w w' : world Queue.t Queue.action) :
  Queue.get_remaining fuel timeout w = (Raise TimeoutError, w') ->
  exists t, timeout = Some t /\ (clock w + t <= clock w')%Z
            /\ Queue._done_ (shared w') = false.
Proof.
  unfold Queue.get_remaining. destruct timeout as [t|]; intros H.
  - unfold bind at 1 in H. unfold bind at 1 in H. cbn in H.
    apply Queue_get_remaining_loop_late in H.
    destruct H as (e & [= <-] & H1 & H2). eauto.
  - unfold bind at 1 in H. cbn in H.
    apply Queue_get_remaining_loop_late in H.
    destruct H as (e & [=] & _).
Qed.

(** A timeout that does run out: the timeout handed to [Condition.wait] is
    [timeout - time.time()], far below zero, and the round that ends past the
    deadline raises. *)
Example Queue_get_remaining_timeout_example :
  Queue.get_remaining 2 (Some 5%Z)
    (mkWorld (Queue.init None) 100%Z [mkWake [Queue.ACall (PyInt 1)] 7] [])
  = (Raise TimeoutError,
     mkWorld (Queue.mk [PyInt 1] 1 false) 107%Z [] [Some (-95)%Z]).
Proof. reflexivity. Qed.

(** * Further properties *)

(** ** The scope of a closure *)

Lemma Queue_call_each (vs : list pyval) (s : Queue.t) :
  call_each (mkClosure (OCallable Queue.call) (OCallable Queue.drop)) vs s =
  (Return PyNone, Queue.produce vs s).
Proof.
  unfold Queue.produce. revert s.
  induction vs as [|v vs IH]; intros s; [reflexivity|].
  cbn [call_each _call_ invoke fold_left]. unfold bind at 1.
  rewrite Queue_call_state. cbn [snd]. apply IH.
Qed.

Lemma ListCollector_call_each (vs : list pyval) (s : ListCollector.t) :
  call_each (mkClosure (OCallable ListCollector.call)
                       (OCallable ListCollector.drop)) vs s =
  (Return PyNone, ListCollector.produce vs s).
Proof.
  unfold ListCollector.produce. revert s.
  induction vs as [|v vs IH]; intros s; [reflexivity|].
  cbn [call_each _call_ invoke fold_left]. unfold bind at 1.
  rewrite ListCollector_call_state. cbn [snd]. apply IH.
Qed.

(** X1.  [with Closure(queue) as x: block] closes the queue before the block
    runs and notifies again after it: [x] is [None], the block (whatever it
    does, and whether it returns or raises) runs on the closed queue with
    the buffer untouched, its result or exception is the result of the
    statement, and [drop] has run once more on the state it leaves.  When the
    block calls the closure with [v1, ..., vn], the queue ends up closed with
    these values appended.  The same holds for a ListCollector. *)
Theorem with_closure_drops_before_and_after :
  (exists c,
      Queue.closure = Return c
      /\ (forall s, IClosure_enter c s = (Return PyNone, Queue.close s))
      /\ (forall (A : Type) (block : pyval -> M Queue.t A) s,
             with_as c block s =
             match block PyNone (Queue.close s) with
             | (Blocked, s') => (Blocked, s')
             | (r, s') => (r, Queue.close s')
             end)
      /\ (forall vs s,
             with_as c (fun _ => call_each c vs) s =
             (Return PyNone,
              Queue.mk (Queue._vec_ s ++ vs) (length vs + 2 + Queue._cv_ s)
                       true)))
  /\ (exists c,
      ListCollector.closure = Return c
      /\ (forall s, IClosure_enter c s = (Return PyNone, ListCollector.close s))
      /\ (forall (A : Type) (block : pyval -> M ListCollector.t A) s,
             with_as c block s =
             match block PyNone (ListCollector.close s) with
             | (Blocked, s') => (Blocked, s')
             | (r, s') => (r, ListCollector.close s')
             end)
      /\ (forall vs s,
             with_as c (fun _ => call_each c vs) s =
             (Return PyNone,
              ListCollector.mk (ListCollector._vec_ s ++ vs)
                               (2 + ListCollector._cv_ s) true
                               (ListCollector.timeout s)))).
Proof.
  split.
  - eexists. split; [reflexivity|]. split; [reflexivity|]. split.
    + intros A block s. unfold with_as.
      change (IClosure_enter _ s) with (Return PyNone, Queue.close s).
      cbv beta iota.
      destruct (block PyNone (Queue.close s)) as [[a|e|] s']; reflexivity.
    + intros vs s. unfold with_as.
      change (IClosure_enter _ s) with (Return PyNone, Queue.close s).
      cbv beta iota.
      rewrite Queue_call_each, Queue_produce_state.
      destruct s as [vec cv d]. cbn. do 2 f_equal. lia.
  - eexists. split; [reflexivity|]. split; [reflexivity|]. split.
    + intros A block s. unfold with_as.
      change (IClosure_enter _ s) with (Return PyNone, ListCollector.close s).
      cbv beta iota.
      destruct (block PyNone (ListCollector.close s)) as [[a|e|] s'];
        reflexivity.
    + intros vs s. unfold with_as.
      change (IClosure_enter _ s) with (Return PyNone, ListCollector.close s).
      cbv beta iota.
      rewrite ListCollector_call_each, ListCollector_produce_state.
      destruct s as [vec cv d tmo]. reflexivity.
Qed.

(** X2.  A consumer of a ListCollector that sleeps in [wait] while a producer
    runs [with Closure(collector): call(v1); ...; call(vn)] can be woken by
    the [drop] of [__enter__]: woken when the producer has made [k] of its
    calls, it returns the first [k] values only; woken at once, the empty
    list. *)
Theorem ListCollector_wait_sees_a_prefix (tmo : option Z) (vs : list pyval)
        (k : nat) (clk : Z) (late : nat) rest :
  fst (ListCollector.wait
         (mkWorld (ListCollector.init tmo) clk
            (mkWake (ListCollector.ADrop
                       :: map ListCollector.ACall (firstn k vs)) late :: rest)
            []))
  = Return (PyList (firstn k vs)).
Proof.
  rewrite ListCollector_wait_unfold. cbn [shared ListCollector.init
    ListCollector._done_ ListCollector.timeout ListCollector.cv_wait
    Condition_wait sched acts fst].
  f_equal. f_equal.
  unfold performs. cbn [fold_left ListCollector.perform].
  rewrite ListCollector_drop_state. cbn [snd].
  generalize (firstn k vs) as l.
  intros l.
  assert (H : forall s,
             ListCollector._vec_
               (fold_left (fun s a => ListCollector.perform a s)
                          (map ListCollector.ACall l) s)
             = ListCollector._vec_ s ++ l).
  { induction l as [|v l IH]; intros s; cbn [map fold_left].
    - now rewrite app_nil_r.
    - rewrite IH. cbn [ListCollector.perform].
      rewrite ListCollector_call_state. cbn [snd ListCollector._vec_].
      now rewrite <- app_assoc. }
  now rewrite H.
Qed.

(** ** Closures without a finalizer, and with a broken one *)

Section MoreShapes.

Variable W : Type.
Implicit Types (c d f g r : obj W) (k : callback W) (ta : option (obj W)).

Lemma with_as_no_drop (A : Type) (cm : Closure W) (block : pyval -> M W A)
      (w : W) :
  (forall w', IClosure_enter cm w' = (Return PyNone, w')) ->
  (forall w', IClosure_exit cm w' = (Return PyNone, w')) ->
  with_as cm block w = block PyNone w.
Proof.
  intros He Hx. unfold with_as. rewrite He.
  destruct (block PyNone w) as [[a|e|] w2]; rewrite ?Hx; reflexivity.
Qed.

(** X3.  The scope of a closure that has nothing to drop is the block alone:
    for a closure built from a bare callable (whose [drop] is the default
    lambda) and for one built from a pair whose second item is [None], the
    [with] statement gives what the block gives, from the same state.  A
    closure whose [drop] is neither [None] nor callable (built from a pair
    with a number there) cannot be entered: [with] raises [TypeError], the
    block does not run and the state is as before. *)
Theorem with_as_without_finalizer (A : Type) k c ta (z : Z)
        (block : pyval -> M W A) (w : W) :
  (exists cm, Closure_init (OCallable k) ta = Return cm
              /\ with_as cm block w = block PyNone w)
  /\ (exists cm, Closure_init (OTuple [c; OValue PyNone]) ta = Return cm
                 /\ with_as cm block w = block PyNone w)
  /\ (exists cm, Closure_init (OTuple [c; OValue (PyInt z)]) ta = Return cm
                 /\ with_as cm block w = (Raise TypeError, w)).
Proof.
  rewrite Closure_init_callable, !Closure_init_pair.
  repeat split; eexists; (split; [reflexivity|]);
    try (apply with_as_no_drop; reflexivity).
  reflexivity.
Qed.

(** ** Adaptors on top of adaptors *)

(** X4.  A closure built with adaptor [f] and wrapped again with adaptor [g]
    calls [g] first, then [f] on what [g] returned, then the original [call]
    on what [f] returned; with functions [ga] and [fa] that is
    [call(fa(ga(x)))].  The [drop] is still the original one.  [Handler]
    stacks adaptors the same way and keeps the receiver. *)
Theorem Closure_adaptors_stack f g c d r k (fa ga : pyval -> pyval) :
  (exists cm1 cm2,
      Closure_init (OTuple [c; d]) (Some f) = Return cm1
      /\ Closure_init (Closure_obj cm1) (Some g) = Return cm2
      /\ _drop_ cm2 = d
      /\ forall args w,
          invoke (_call_ cm2) args w =
          (y <- invoke g args ;; z <- invoke f [y] ;; invoke c [z]) w)
  /\ (exists cm1 cm2,
      Closure_init (OCallable k) (Some (OCallable (pure_fun fa))) = Return cm1
      /\ Closure_init (Closure_obj cm1) (Some (OCallable (pure_fun ga)))
         = Return cm2
      /\ forall x w, invoke (_call_ cm2) [x] w = k [fa (ga x)] w)
  /\ (exists h1 h2,
      Handler_init (OTuple [OCallable k; d; r]) (Some f) = Return h1
      /\ Handler_init (Handler_obj h1) (Some g) = Return h2
      /\ _receiver_ h2 = r
      /\ _drop_ (_closure_ h2) = d
      /\ forall args w,
          invoke (_call_ (_closure_ h2)) args w =
          (y <- invoke g args ;; z <- invoke f [y] ;; k [z]) w).
Proof.
  split; [|split].
  - do 2 eexists. repeat split.
  - do 2 eexists. repeat split.
  - do 2 eexists. repeat split.
Qed.

(** ** What the adaptor cannot change *)

(** X5.  Whether a constructor accepts its input does not depend on the type
    adaptor, and neither does the exception, the [drop] or the receiver: with
    and without an adaptor both constructions return, with the same [drop]
    (and receiver), or both raise the same exception. *)
Theorem adaptor_does_not_change_acceptance (x : obj W) f :
  match Closure_init x (Some f), Closure_init x None with
  | Return cm1, Return cm2 => _drop_ cm1 = _drop_ cm2
  | Raise e1, Raise e2 => e1 = e2
  | _, _ => False
  end
  /\ match Handler_init x (Some f), Handler_init x None with
     | Return h1, Return h2 =>
         _drop_ (_closure_ h1) = _drop_ (_closure_ h2)
         /\ _receiver_ h1 = _receiver_ h2
     | Raise e1, Raise e2 => e1 = e2
     | _, _ => False
     end.
Proof.
  assert (HC : forall y : obj W,
             match Closure_init y (Some f), Closure_init y None with
             | Return cm1, Return cm2 => _drop_ cm1 = _drop_ cm2
             | Raise e1, Raise e2 => e1 = e2
             | _, _ => False
             end).
  { intros y. unfold Closure_init.
    destruct y as [c0 r0|a b|items|k0|v]; try reflexivity.
    - destruct c0 as [c1 r1|a b|items|k0|v]; try reflexivity.
      destruct items as [|i1 [|i2 [|i3 items]]]; reflexivity.
    - destruct items as [|i1 [|i2 [|i3 items]]]; reflexivity. }
  split; [apply HC|].
  unfold Handler_init.
  assert (HP : Handler_parts x <> Blocked).
  { destruct x as [c0 r0|a b|items|k0|v]; try discriminate.
    destruct items as [|i1 [|i2 [|i3 [|i4 items]]]]; cbn;
      try discriminate; destruct (is_IClosure i1); discriminate. }
  destruct (Handler_parts x) as [[y r0]|e|]; [|reflexivity|contradiction].
  specialize (HC y).
  destruct (Closure_init y (Some f)) as [cm1|e1|],
           (Closure_init y None) as [cm2|e2|]; cbn; auto; try contradiction.
Qed.

(** ** Tuples *)

(** X6.  Of the tuples, [Closure] takes the pairs only, and every other
    length raises [ValueError].  [Handler] takes the pairs, and the triples
    that do not start with a closure; the empty tuple raises [IndexError]
    and every other tuple [ValueError].  No tuple raises [TypeError], and the
    items are not looked at beyond the test whether the first is a
    closure. *)
Theorem tuple_lengths (items : list (obj W)) ta :
  ((length items = 2 /\ exists cm, Closure_init (OTuple items) ta = Return cm)
   \/ (length items <> 2 /\ Closure_init (OTuple items) ta = Raise ValueError))
  /\ ((items = [] /\ Handler_init (OTuple items) ta = Raise IndexError)
      \/ ((length items = 2
           \/ (length items = 3 /\ exists x rest,
                  items = x :: rest /\ is_IClosure x = false))
          /\ exists h, Handler_init (OTuple items) ta = Return h)
      \/ (items <> []
          /\ Handler_init (OTuple items) ta = Raise ValueError)).
Proof.
  split.
  - destruct items as [|i1 [|i2 [|i3 items]]];
      try (right; split; [cbn; lia | reflexivity]).
    left. split; [reflexivity|]. rewrite Closure_init_pair. eauto.
  - destruct items as [|i1 [|i2 [|i3 [|i4 items]]]].
    + left. split; reflexivity.
    + right; right. split; [discriminate|].
      destruct i1; reflexivity.
    + right; left. split; [left; reflexivity|].
      unfold Handler_init, Handler_parts.
      destruct (is_IClosure i1) eqn:E.
      * destruct i1; try discriminate. cbn.
        destruct ta; eauto.
      * cbn [length Nat.eqb]. rewrite Closure_init_pair. eauto.
    + destruct (is_IClosure i1) eqn:E.
      * right; right. split; [discriminate|].
        unfold Handler_init, Handler_parts. rewrite E. reflexivity.
      * right; left. split; [right; split; [reflexivity|eauto]|].
        unfold Handler_init, Handler_parts. rewrite E.
        cbn [length Nat.eqb]. rewrite Closure_init_pair. eauto.
    + right; right. split; [discriminate|].
      unfold Handler_init, Handler_parts.
      destruct (is_IClosure i1) eqn:E; [reflexivity|].
      cbn [length Nat.eqb]. reflexivity.
Qed.

(** ** Handlers inside handlers *)

(** X7.  [Closure] looks one level into a handler and no further: the
    closure of the handler may be a closure, a pair or a callable, but when
    it is a handler again the construction raises [TypeError].  [Handler]
    reads the closure of its input and passes it through [Closure], so it
    gets through two levels and keeps the receiver of the outer one. *)
Theorem handler_unwrapping_depth c d r r' k (inner : obj W) ta :
  Closure_init (OHandler (OHandler inner r) r') ta = Raise TypeError
  /\ Closure_init (OHandler (OTuple [c; d]) r) None = Return (mkClosure c d)
  /\ Closure_init (OHandler (OCallable k) r) None
     = Return (mkClosure (OCallable k) (OCallable lambda_None))
  /\ Handler_init (OHandler (OHandler (OClosure c d) r) r') None
     = Return (mkHandler (mkClosure c d) r')
  /\ Handler_init (OHandler (OHandler (OHandler inner r) r') r) ta
     = Raise TypeError.
Proof. repeat split; reflexivity. Qed.

End MoreShapes.

(** ** Queue.get: when it hangs, what a failure leaves behind *)






Lemma performs_app {S Act} (perform : Act -> S -> S) (l1 l2 : list Act) (s : S) :
  performs perform (l1 ++ l2) s = performs perform l2 (performs perform l1 s).
Proof. unfold performs. apply fold_left_app. Qed.

(** X11.  A [get] that sleeps on an empty, open queue receives the value of
    a [call] made in the meantime: when the last thing the other threads did
    before it runs again is [call(x)], it returns [x] and leaves the buffer
    as it was before that call. *)
Theorem Queue_get_receives_while_waiting (timeout : option Z)
        (l : list Queue.action) (x : pyval) (cv : nat) (clk : Z) (late : nat)
        rest wts :
  Queue.get timeout
    (mkWorld (Queue.mk [] cv false) clk
             (mkWake (l ++ [Queue.ACall x]) late :: rest) wts)
  = (Return x,
     mkWorld (Queue.mk
                (Queue._vec_ (performs Queue.perform l (Queue.mk [] cv false)))
                (S (Queue._cv_
                      (performs Queue.perform l (Queue.mk [] cv false))))
                (Queue._done_
                   (performs Queue.perform l (Queue.mk [] cv false))))
             (clk + Z.of_nat late) rest (wts ++ [timeout])).
Proof.
  rewrite Queue_get_unfold.
  cbn [shared Queue._vec_ Queue._done_ unsnoc Queue.cv_wait Condition_wait
       sched clock waits acts elapsed].
  rewrite performs_app.
  change (performs Queue.perform [Queue.ACall x] ?s)
    with (snd (Queue.call [x] s)).
  rewrite Queue_call_state. cbn [snd Queue._vec_].
  rewrite unsnoc_app. reflexivity.
Qed.

(** ** Queue.get_remaining: what it reads, when it fails *)

Lemma Queue_wait_idle (timeout : option Z) (w : world Queue.t Queue.action) :
  Forall (fun wk => acts wk = []) (sched w) ->
  shared (snd (Queue.cv_wait timeout w)) = shared w
  /\ Forall (fun wk => acts wk = []) (sched (snd (Queue.cv_wait timeout w))).
Proof.
  intros H. unfold Queue.cv_wait, Condition_wait.
  destruct (sched w) as [|wk rest].
  - destruct timeout; cbn; auto.
  - inversion H as [|? ? Hwk Hrest]; subst. cbn. rewrite Hwk. auto.
Qed.

Lemma Queue_get_remaining_loop_reads_only (fuel : nat)
      (timeout end_ : option Z) (w : world Queue.t Queue.action) :
  Forall (fun wk => acts wk = []) (sched w) ->
  shared (snd (Queue.get_remaining_loop fuel timeout end_ w)) = shared w.
Proof.
  revert w. induction fuel as [|fuel IH]; intros w H.
  - cbn. unfold bind, Queue.done, gets.
    destruct (Queue._done_ (shared w)); reflexivity.
  - destruct (Queue._done_ (shared w)) eqn:D.
    + cbn. unfold bind, Queue.done, gets. rewrite D. reflexivity.
    + rewrite (Queue_get_remaining_loop_unfold fuel timeout end_ w D).
      match goal with
      | |- context [Queue.cv_wait ?tmo w] =>
          destruct (Queue_wait_idle tmo w H) as [Hs Hi];
          destruct (Queue.cv_wait tmo w) as [[[]|e|] w1]
      end; cbn [snd] in *; auto.
      destruct (Queue._done_ (shared w1)); [assumption|].
      destruct end_ as [e|]; [|assumption].
      destruct (e <=? clock w1)%Z; [assumption|].
      rewrite IH; assumption.
Qed.

(** X12.  [get_remaining] only reads: however it ends (a list, [None], an
    exception, still waiting), it has removed nothing from the buffer and
    has not touched the flag.  When the other threads did not touch the
    queue while it slept, the shared state is the one of the call. *)
Theorem Queue_get_remaining_reads_only (fuel : nat) (timeout : option Z)
        (w : world Queue.t Queue.action) :
  Forall (fun wk => acts wk = []) (sched w) ->
  shared (snd (Queue.get_remaining fuel timeout w)) = shared w.
Proof.
  intros H. unfold Queue.get_remaining.
  destruct timeout as [t|]; unfold bind at 1.
  - unfold bind at 1. cbn [time_time gets ret].
    now apply Queue_get_remaining_loop_reads_only.
  - cbn [ret]. now apply Queue_get_remaining_loop_reads_only.
Qed.

Lemma Queue_get_remaining_reads_only_witness :
  Forall (fun wk : wake Queue.action => acts wk = []) [mkWake [] 3]
  /\ shared (snd (Queue.get_remaining 4 (Some 2%Z)
                    (mkWorld (Queue.mk [PyInt 1; PyInt 2] 0 false) 10%Z
                             [mkWake [] 3] [])))
     = Queue.mk [PyInt 1; PyInt 2] 0 false.
Proof.
  split; [repeat constructor|].
  apply (@Queue_get_remaining_reads_only 4 (Some 2%Z)
           (mkWorld (Queue.mk [PyInt 1; PyInt 2] 0 false) 10%Z
                    [mkWake [] 3] [])).
  repeat constructor.
Defined.

(** X13.  Without a timeout, [get_remaining] on an open queue raises
    [TypeError] as soon as it is woken and the queue is still open (by a
    [call], say): the deadline it compares the clock with is [None]. *)
Theorem Queue_get_remaining_no_timeout_TypeError (fuel : nat)
        (vec : list pyval) (cv : nat) (clk : Z) (wk : wake Queue.action)
        rest wts :
  Queue._done_ (performs Queue.perform (acts wk) (Queue.mk vec cv false))
  = false ->
  fst (Queue.get_remaining (S fuel) None
         (mkWorld (Queue.mk vec cv false) clk (wk :: rest) wts))
  = Raise TypeError.
Proof.
  intros H. unfold Queue.get_remaining. unfold bind at 1. cbn [ret].
  rewrite Queue_get_remaining_loop_unfold by reflexivity.
  cbn [truthy Queue.cv_wait Condition_wait sched shared].
  now rewrite H.
Qed.

Lemma Queue_get_remaining_no_timeout_TypeError_witness :
  fst (Queue.get_remaining 1 None
         (mkWorld (Queue.mk [] 0 false) 0%Z
                  [mkWake [Queue.ACall (PyInt 1)] 0] []))
  = Raise TypeError.
Proof.
  apply (@Queue_get_remaining_no_timeout_TypeError 0 [] 0 0%Z
           (mkWake [Queue.ACall (PyInt 1)] 0) [] []).
  reflexivity.
Defined.

(** The deadline is kept: see [Queue_get_remaining_timeout_is_late]. *)
Lemma Queue_get_remaining_timeout_is_late_witness :
  exists t, Some 5%Z = Some t
            /\ (100 + t <= 107)%Z
            /\ Queue._done_ (Queue.mk [PyInt 1] 1 false) = false.
Proof.
  apply (@Queue_get_remaining_timeout_is_late 2 (Some 5%Z)
           (mkWorld (Queue.init None) 100%Z
                    [mkWake [Queue.ACall (PyInt 1)] 7] [])
           (mkWorld (Queue.mk [PyInt 1] 1 false) 107%Z [] [Some (-95)%Z])).
  reflexivity.
Defined.

(** X15.  [get_remaining(0)] does not poll.  A timeout of zero counts as no
    timeout for the wait: on an open queue that nobody touches the call
    never comes back, and at the first wake-up that leaves the queue open it
    raises [TimeoutError], the deadline being the time of the call. *)
Theorem Queue_get_remaining_zero_timeout (fuel : nat) (vec : list pyval)
        (cv : nat) (clk : Z) wts :
  Queue.get_remaining (S fuel) (Some 0%Z)
    (mkWorld (Queue.mk vec cv false) clk [] wts)
  = (Blocked, mkWorld (Queue.mk vec cv false) clk [] (wts ++ [None]))
  /\ forall wk rest,
      Queue._done_ (performs Queue.perform (acts wk) (Queue.mk vec cv false))
      = false ->
      Queue.get_remaining (S fuel) (Some 0%Z)
        (mkWorld (Queue.mk vec cv false) clk (wk :: rest) wts)
      = (Raise TimeoutError,
         mkWorld (performs Queue.perform (acts wk) (Queue.mk vec cv false))
                 (clk + Z.of_nat (elapsed wk)) rest (wts ++ [None])).
Proof.
  split.
  - reflexivity.
  - intros wk rest H. unfold Queue.get_remaining.
    unfold bind at 1. unfold bind at 1. cbn [time_time gets ret clock].
    rewrite Queue_get_remaining_loop_unfold by reflexivity.
    cbn [truthy Z.eqb negb Queue.cv_wait Condition_wait sched shared clock
         waits].
    rewrite H.
    replace (clk + 0 <=? clk + Z.of_nat (elapsed wk))%Z with true
      by (symmetry; apply Z.leb_le; lia).
    reflexivity.
Qed.

Lemma Queue_wait_clock (timeout : option Z) (w : world Queue.t Queue.action) :
  (clock w <= clock (snd (Queue.cv_wait timeout w)))%Z
  /\ (waits (snd (Queue.cv_wait timeout w)) = waits w ++ [timeout]).
Proof.
  unfold Queue.cv_wait, Condition_wait.
  destruct (sched w) as [|wk rest]; [destruct timeout|]; cbn; split;
    auto; lia.
Qed.

Lemma Queue_get_remaining_loop_polls (fuel : nat) (t : Z) (end_ : option Z)
      (w : world Queue.t Queue.action) :
  t <> 0%Z -> (t < clock w)%Z ->
  Forall (fun x => exists z, x = Some z /\ (z < 0)%Z) (waits w) ->
  Forall (fun x => exists z, x = Some z /\ (z < 0)%Z)
         (waits (snd (Queue.get_remaining_loop fuel (Some t) end_ w))).
Proof.
  intros Ht. revert w. induction fuel as [|fuel IH]; intros w Hc Hw.
  - cbn. unfold bind, Queue.done, gets.
    destruct (Queue._done_ (shared w)); assumption.
  - destruct (Queue._done_ (shared w)) eqn:D.
    + cbn. unfold bind, Queue.done, gets. rewrite D. assumption.
    + rewrite (Queue_get_remaining_loop_unfold fuel (Some t) end_ w D).
      cbn [truthy option_map].
      replace (negb (t =? 0)%Z) with true
        by (symmetry; apply negb_true_iff, Z.eqb_neq; assumption).
      destruct (Queue_wait_clock (Some (t - clock w)%Z) w) as [Hclk Hlog].
      assert (Hw1 : Forall (fun x => exists z, x = Some z /\ (z < 0)%Z)
                      (waits (snd (Queue.cv_wait (Some (t - clock w)%Z) w)))).
      { rewrite Hlog. apply Forall_app. split; [assumption|].
        constructor; [|constructor]. eexists. split; [reflexivity|lia]. }
      destruct (Queue.cv_wait (Some (t - clock w)%Z) w) as [[[]|e|] w1];
        cbn [snd] in *; auto.
      destruct (Queue._done_ (shared w1)); [assumption|].
      destruct end_ as [e|]; [|assumption].
      destruct (e <=? clock w1)%Z; [assumption|].
      apply IH; [lia | assumption].
Qed.

(** X16.  With a timeout [t] other than zero, [get_remaining] hands
    [t - time.time()] to [Condition.wait], not the time left to its
    deadline.  When the clock reads more than [t] (as the time since 1970
    does for any timeout one would give), every wait of the call has a
    negative timeout, so none of them sleeps: the loop polls. *)
Theorem Queue_get_remaining_polls (fuel : nat) (t : Z) (s : Queue.t)
        (clk : Z) sch :
  t <> 0%Z -> (t < clk)%Z ->
  Forall (fun x => exists z, x = Some z /\ (z < 0)%Z)
         (waits (snd (Queue.get_remaining fuel (Some t)
                        (mkWorld s clk sch [])))).
Proof.
  intros Ht Hc. unfold Queue.get_remaining.
  unfold bind at 1. unfold bind at 1. cbn [time_time gets ret].
  apply Queue_get_remaining_loop_polls; auto.
Qed.

Lemma Queue_get_remaining_polls_witness :
  waits (snd (Queue.get_remaining 3 (Some 5%Z)
                (mkWorld (Queue.init None) 100%Z [mkWake [] 2] [])))
  = [Some (-95)%Z; Some (-97)%Z; Some (-97)%Z]
  /\ Forall (fun x => exists z, x = Some z /\ (z < 0)%Z)
            (waits (snd (Queue.get_remaining 3 (Some 5%Z)
                           (mkWorld (Queue.init None) 100%Z
                                    [mkWake [] 2] [])))).
Proof.
  split; [reflexivity|].
  apply (@Queue_get_remaining_polls 3 5%Z (Queue.init None) 100%Z
           [mkWake [] 2]); [discriminate | reflexivity].
Defined.

(** ** ListCollector: the buffer only grows *)

Lemma ListCollector_performs_grows (l : list ListCollector.action)
      (s : ListCollector.t) :
  exists suffix,
    ListCollector._vec_ (performs ListCollector.perform l s)
    = ListCollector._vec_ s ++ suffix.
Proof.
  unfold performs. revert s.
  induction l as [|a l IH]; intros s; cbn [fold_left].
  - exists []. now rewrite app_nil_r.
  - destruct (IH (ListCollector.perform a s)) as [suf H]. rewrite H.
    destruct a as [x|]; cbn [ListCollector.perform].
    + rewrite ListCollector_call_state. cbn [snd ListCollector._vec_].
      exists (x :: suf). now rewrite <- app_assoc.
    + rewrite ListCollector_drop_state. cbn [snd ListCollector._vec_]. eauto.
Qed.

Lemma ListCollector_step_grows (o : ListCollector.op)
      (w : world ListCollector.t ListCollector.action) :
  exists suffix,
    ListCollector._vec_ (shared (ListCollector.step o w))
    = ListCollector._vec_ (shared w) ++ suffix.
Proof.
  destruct o as [x| |]; cbn [ListCollector.step].
  - destruct w as [[vec cv d tmo] clk sch wts]. exists [x]. reflexivity.
  - destruct w as [[vec cv d tmo] clk sch wts]. exists []. cbn.
    now rewrite app_nil_r.
  - unfold ListCollector.receiver. rewrite ListCollector_wait_unfold.
    destruct (ListCollector._done_ (shared w)).
    + exists []. cbn. now rewrite app_nil_r.
    + unfold ListCollector.cv_wait, Condition_wait.
      destruct (sched w) as [|wk rest].
      * exists []. destruct (ListCollector.timeout (shared w)); cbn;
          now rewrite app_nil_r.
      * cbn. apply ListCollector_performs_grows.
Qed.

(** X17.  Nothing is ever taken out of a ListCollector.  Whatever one thread
    runs on it ([call], [drop], [wait]) and whatever the producers do while
    it waits, the buffer afterwards is the buffer before with values added
    at the end; so every list [wait] returns extends the ones it returned
    before. *)
Theorem ListCollector_buffer_only_grows (ops : list ListCollector.op)
        (w : world ListCollector.t ListCollector.action) :
  exists suffix,
    ListCollector._vec_ (shared (ListCollector.run ops w))
    = ListCollector._vec_ (shared w) ++ suffix.
Proof.
  unfold ListCollector.run. revert w.
  induction ops as [|o ops IH]; intros w; cbn [fold_left].
  - exists []. now rewrite app_nil_r.
  - destruct (IH (ListCollector.step o w)) as [suf1 H1].
    destruct (ListCollector_step_grows o w) as [suf2 H2].
    exists (suf2 ++ suf1). now rewrite H1, H2, app_assoc.
Qed.

(** ** examples/z_pull.py: the loop of main *)

Lemma ZPull_loop_stops (c : string) (fuel : nat) :
  String.eqb c "q"%string = true ->
  forall s, ZPull.pull_loop fuel c s = (Return tt, s).
Proof. intros H s. destruct fuel; cbn; rewrite H; reflexivity. Qed.

Lemma ZPull_loop_until_q (pre rest : string) :
  ZPull.has_q pre = false ->
  forall (fuel : nat) (c : string) (tr : list ZPull.event),
    String.eqb c "q"%string = false ->
    String.length pre < fuel ->
    ZPull.pull_loop fuel c (ZPull.mkIo (pre ++ String "q"%char rest)%string tr) =
    (Return tt,
     ZPull.mkIo rest (tr ++ repeat ZPull.EvPull (S (String.length pre)))).
Proof.
  induction pre as [|ch pre IH]; intros Hq fuel c tr Hc Hf;
    (destruct fuel as [|fuel]; [cbn in Hf; lia|]).
  - cbn [ZPull.pull_loop]. rewrite Hc. cbn [negb].
    unfold bind at 1. cbn.
    now rewrite ZPull_loop_stops.
  - cbn in Hq. apply orb_false_iff in Hq. destruct Hq as [Hch Hq].
    cbn [ZPull.pull_loop]. rewrite Hc. cbn [negb].
    unfold bind at 1. cbn.
    rewrite (IH Hq fuel (String ch EmptyString) (tr ++ [ZPull.EvPull])).
    + now rewrite <- app_assoc.
    + cbn. now rewrite Hch.
    + cbn in Hf. lia.
Qed.

Lemma ZPull_loop_at_eof (fuel : nat) :
  forall (c : string) (tr : list ZPull.event),
    String.eqb c "q"%string = false ->
    ZPull.pull_loop fuel c (ZPull.mkIo EmptyString tr) =
    (Blocked, ZPull.mkIo EmptyString (tr ++ repeat (ZPull.EvSleep 1) fuel)).
Proof.
  induction fuel as [|fuel IH]; intros c tr Hc.
  - cbn. rewrite Hc. cbn. now rewrite app_nil_r.
  - cbn [ZPull.pull_loop]. rewrite Hc. cbn [negb].
    unfold bind at 1. cbn.
    rewrite IH by reflexivity. now rewrite <- app_assoc.
Qed.

Lemma ZPull_loop_without_q (input : string) :
  ZPull.has_q input = false ->
  forall (fuel : nat) (c : string) (tr : list ZPull.event),
    String.eqb c "q"%string = false ->
    String.length input <= fuel ->
    ZPull.pull_loop fuel c (ZPull.mkIo input tr) =
    (Blocked,
     ZPull.mkIo EmptyString
       (tr ++ repeat ZPull.EvPull (String.length input)
           ++ repeat (ZPull.EvSleep 1) (fuel - String.length input))).
Proof.
  induction input as [|ch input IH]; intros Hq fuel c tr Hc Hf.
  - rewrite ZPull_loop_at_eof by assumption. cbn. now rewrite Nat.sub_0_r.
  - destruct fuel as [|fuel]; [cbn in Hf; lia|].
    cbn in Hq. apply orb_false_iff in Hq. destruct Hq as [Hch Hq].
    cbn [ZPull.pull_loop]. rewrite Hc. cbn [negb].
    unfold bind at 1. cbn.
    rewrite (IH Hq fuel (String ch EmptyString) (tr ++ [ZPull.EvPull])).
    + now rewrite <- app_assoc.
    + cbn. now rewrite Hch.
    + cbn in Hf. lia.
Qed.

Lemma ZPull_main_unfold (fuel : nat) (key : string) (input : string) :
  ZPull.main fuel key (ZPull.mkIo input []) =
  match ZPull.pull_loop fuel (String Ascii.zero EmptyString)
          (ZPull.mkIo input (ZPull.prelude key)) with
  | (Return _, s) =>
      (Return tt,
       ZPull.mkIo (ZPull.stdin s)
                  (ZPull.trace s ++ [ZPull.EvUndeclare; ZPull.EvClose]))
  | (Raise e, s) => (Raise e, s)
  | (Blocked, s) => (Blocked, s)
  end.
Proof.
  unfold ZPull.main. do 6 (unfold bind at 1; cbn [ZPull.emit modify]).
  cbn [ZPull.stdin ZPull.trace app]. unfold bind at 1.
  change ([ZPull.EvInitLogger; ZPull.EvPrint "Opening session..."%string; ZPull.EvOpen;
           ZPull.EvPrint ("Declaring Subscriber on '" ++ key ++ "'...")%string;
           ZPull.EvDeclarePullSubscriber key;
           ZPull.EvPrint "Press <enter> to pull data..."%string])
    with (ZPull.prelude key).
  destruct (ZPull.pull_loop _ _ _) as [[[]|e|] [si tr]]; try reflexivity.
  unfold bind. cbn. unfold ZPull.emit, modify. cbn.
  now rewrite <- app_assoc.
Qed.

(** X18.  [main] pulls once for every character it reads, the [q] that ends
    the loop included (and so does a line feed): on an input whose first [q]
    comes after [n] other characters it pulls [n + 1] times, never sleeps,
    then undeclares the subscriber and closes the session, and leaves what
    follows the [q] unread. *)
Theorem ZPull_main_pulls_until_q (key pre rest : string) (fuel : nat) :
  ZPull.has_q pre = false ->
  String.length pre < fuel ->
  ZPull.main fuel key (ZPull.mkIo (pre ++ String "q"%char rest)%string []) =
  (Return tt,
   ZPull.mkIo rest
     (ZPull.prelude key ++ repeat ZPull.EvPull (S (String.length pre))
        ++ [ZPull.EvUndeclare; ZPull.EvClose])).
Proof.
  intros Hq Hf. rewrite ZPull_main_unfold.
  rewrite (ZPull_loop_until_q pre rest Hq) by (auto; reflexivity).
  cbn [ZPull.stdin ZPull.trace]. now rewrite <- app_assoc.
Qed.

Lemma ZPull_main_pulls_until_q_witness :
  ZPull.main 5 "demo/**"%string (ZPull.mkIo "ab q!"%string []) =
  (Return tt,
   ZPull.mkIo "!"%string
     (ZPull.prelude "demo/**"%string ++ repeat ZPull.EvPull 4
        ++ [ZPull.EvUndeclare; ZPull.EvClose])).
Proof.
  apply (@ZPull_main_pulls_until_q "demo/**"%string "ab "%string "!"%string 5);
    [reflexivity | cbn; lia].
Defined.

(** X19.  Without a [q] in the input [main] does not end: it pulls once for
    each character, and at the end of the input it sleeps a second and reads
    again, for as many rounds as it is given; the subscriber is never
    undeclared and the session never closed. *)
Theorem ZPull_main_spins_at_eof (key input : string) (fuel : nat) :
  ZPull.has_q input = false ->
  String.length input <= fuel ->
  ZPull.main fuel key (ZPull.mkIo input []) =
  (Blocked,
   ZPull.mkIo EmptyString
     (ZPull.prelude key ++ repeat ZPull.EvPull (String.length input)
        ++ repeat (ZPull.EvSleep 1) (fuel - String.length input))).
Proof.
  intros Hq Hf. rewrite ZPull_main_unfold.
  now rewrite (ZPull_loop_without_q input Hq) by (auto; reflexivity).
Qed.

Lemma ZPull_main_spins_at_eof_witness :
  ZPull.main 5 "demo/**"%string (ZPull.mkIo "ab"%string []) =
  (Blocked,
   ZPull.mkIo EmptyString
     (ZPull.prelude "demo/**"%string ++ repeat ZPull.EvPull 2
        ++ repeat (ZPull.EvSleep 1) 3)).
Proof.
  apply (@ZPull_main_spins_at_eof "demo/**"%string "ab"%string 5);
    [reflexivity | cbn; lia].
Defined.

(** ** Queue.get between the locks *)





